(** * aiozmq.rpc: a shallow embedding of the RPC client and server protocols

    The development follows [aiozmq/rpc.py]: the Python values that cross the
    wire, the [struct] headers, the client protocol ([_ClientProtocol]) with
    its call registry and error table, the server protocol
    ([_ServerProtocol]) with its dispatcher, and the shared base class
    ([_BaseProtocol]).

    External collaborators are parameters of the sections below: the msgpack
    packer and unpacker ([aiozmq.util._Packer], [_Unpacker]), the UTF-8 codec,
    the clock ([time.time()], passed as an argument [now] to the operations
    that read it) and the user's handler functions. *)

From Stdlib Require Import ZArith Lia Ascii String.
From stdpp Require Import base gmap strings list list_numbers.

Local Open Scope string_scope.
Local Open Scope Z_scope.

Set Warnings "-register-all".

(** ** Python values *)

Module Py.

(** A byte string ([bytes]) is a list of bytes. *)
Abbreviation bytes := (list Byte.byte).

(** The values that handlers take and return and that the packer is given.
    [VObject] stands for any other object (the packer cannot serialise it). *)
Inductive value : Type :=
| VNone
| VBool (b : bool)
| VInt (z : Z)
| VStr (s : string)
| VBytes (b : bytes)
| VTuple (items : list value)
| VList (items : list value)
| VDict (items : list (value * value))
| VObject (ident : string).

(** An exception instance: the class it belongs to, given by [__module__] and
    [__name__], and its [args] tuple. *)
Record pyexc : Type := PyExc {
  exc_module : string;
  exc_name : string;
  exc_args : list value
}.

(** The outcome of running Python code: it returns or it raises. *)
Inductive result (A : Type) : Type :=
| Ok (a : A)
| Raise (e : pyexc).
Arguments Ok {A} a.
Arguments Raise {A} e.

(** Exceptions raised by the interpreter and the libraries; the messages are
    left out. *)
Definition ValueError : pyexc := PyExc "builtins" "ValueError" [].
Definition TypeError : pyexc := PyExc "builtins" "TypeError" [].
Definition AttributeError : pyexc := PyExc "builtins" "AttributeError" [].
Definition AssertionError : pyexc := PyExc "builtins" "AssertionError" [].
Definition struct_error : pyexc := PyExc "struct" "error" [].
Definition InvalidStateError : pyexc :=
  PyExc "asyncio.futures" "InvalidStateError" [].

(** [iter(v)] as used by [*v] and [tuple(v)]: the items of a sequence, the
    characters of a string, the integers of a byte string, the keys of a
    dict; [None] when [v] is not iterable ([TypeError]). *)
Definition py_iter (v : value) : option (list value) :=
  match v with
  | VTuple items | VList items => Some items
  | VStr s => Some ((λ c, VStr (String c "")) <$> String.list_ascii_of_string s)
  | VBytes b => Some ((λ x, VInt (Z.of_N (Byte.to_N x))) <$> b)
  | VDict items => Some (fst <$> items)
  | VNone | VBool _ | VInt _ | VObject _ => None
  end.

(** [tuple(v)] *)
Definition tuple (v : value) : result value :=
  match py_iter v with
  | Some items => Ok (VTuple items)
  | None => Raise TypeError
  end.

(** Whether [hash(v)] succeeds: lists and dicts are unhashable, and so is a
    tuple that holds one. *)
Fixpoint hashable (v : value) : bool :=
  match v with
  | VList _ | VDict _ => false
  | VTuple items => forallb hashable items
  | _ => true
  end.

(** ** State-and-exception monad

    A method of an object with state [S] either returns or raises, and in
    both cases leaves a state behind: what was mutated before an exception
    stays mutated. *)
Definition M (S A : Type) : Type := S → result A * S.

Definition ret {S A} (a : A) : M S A := λ s, (Ok a, s).
Definition raise {S A} (e : pyexc) : M S A := λ s, (Raise e, s).
Definition bind {S A B} (m : M S A) (k : A → M S B) : M S B :=
  λ s, match m s with
       | (Ok a, s') => k a s'
       | (Raise e, s') => (Raise e, s')
       end.
Definition get {S} : M S S := λ s, (Ok s, s).
Definition gets {S A} (f : S → A) : M S A := λ s, (Ok (f s), s).
Definition modify {S} (f : S → S) : M S unit := λ s, (Ok tt, f s).
Definition lift_result {S A} (r : result A) : M S A := λ s, (r, s).

(** [try: body except Exception: handler], for the bodies whose exceptions
    are all [Exception]s: those of [struct], of the codecs and of the
    transport, and the exception that a future holds. *)
Definition try_except {S A} (body : M S A) (handler : pyexc → M S A) : M S A :=
  λ s, match body s with
       | (Ok a, s') => (Ok a, s')
       | (Raise e, s') => handler e s'
       end.

(** Run a method of a component on the state that holds it. *)
Definition zoom {S T A} (proj : S → T) (upd : T → S → S) (m : M T A) : M S A :=
  λ s, let '(r, t) := m (proj s) in (r, upd t s).

(** [for x in xs: body(x)] *)
Fixpoint for_each {S A} (xs : list A) (body : A → M S unit) : M S unit :=
  match xs with
  | [] => ret tt
  | x :: xs => bind (body x) (λ _, for_each xs body)
  end.

End Py.

Import Py.

#[export] Instance result_ret : MRet result := λ A, Ok.
#[export] Instance result_bind : MBind result := λ A B k r,
  match r with Ok a => k a | Raise e => Raise e end.
#[export] Instance M_ret {S} : MRet (M S) := λ A, ret.
#[export] Instance M_bind {S} : MBind (M S) := λ A B k m, bind m k.

(** ** Strings

    [str.split(sep)] and [str.rpartition(sep)] for a one-character
    separator. *)

Fixpoint split (sep : Ascii.ascii) (s : string) : list string :=
  match s with
  | EmptyString => [EmptyString]
  | String c rest =>
      if Ascii.eqb c sep then EmptyString :: split sep rest
      else match split sep rest with
           | part :: parts => String c part :: parts
           | [] => [String c EmptyString]
           end
  end.

Fixpoint rpartition (sep : Ascii.ascii) (s : string) : string * string * string :=
  match s with
  | EmptyString => (EmptyString, EmptyString, EmptyString)
  | String c rest =>
      match rpartition sep rest with
      | (head, EmptyString, tail) =>
          if Ascii.eqb c sep then (EmptyString, String sep EmptyString, tail)
          else (EmptyString, EmptyString, String c tail)
      | (head, found, tail) => (String c head, found, tail)
      end
  end.

(** [sep.join(parts)] *)
Fixpoint join (sep : string) (parts : list string) : string :=
  match parts with
  | [] => EmptyString
  | part :: rest =>
      match rest with
      | [] => part
      | _ :: _ => part +:+ sep +:+ join sep rest
      end
  end.

(** [sep in s] for a one-character [sep] *)
Fixpoint contains (sep : Ascii.ascii) (s : string) : bool :=
  match s with
  | EmptyString => false
  | String c rest => Ascii.eqb c sep || contains sep rest
  end.

(** ** Objects of the handler tree

    What [handler[key]] can give back. [rpc] tells whether the object has an
    [__rpc__] attribute.
    - [PyHandler]: an object whose class defines [__getitem__], hence an
      instance of [AbstractHandler] by its [__subclasshook__]; [items] is
      what [__getitem__] finds, a missing key is [KeyError].
    - [PyCustom]: an object of any other class that defines [__getitem__],
      an instance of [AbstractHandler] as well; [lookup] is what its
      [__getitem__] does with a [str] key, which may be to raise an exception
      of any kind.
    - [PySequence]: a [str], [list] or [tuple], such as the [__module__] or
      [__doc__] that [AttrHandler.__getitem__] finds by [getattr]. Its class
      defines [__getitem__], so it is an instance of [AbstractHandler] as
      well, but its [__getitem__] raises [TypeError] on a [str] key; it has
      no [__rpc__] attribute and takes none.
    - [PyFunction]: a plain function.
    - [PyMethod]: a bound method ([types.MethodType]) around [__func__].
    - [PyOther]: any other object, without [__getitem__]. *)
Inductive pyobj : Type :=
| PyHandler (items : gmap string pyobj) (rpc : bool)
| PyCustom (ident : string) (lookup : string → result pyobj) (rpc : bool)
| PySequence (ident : string)
| PyFunction (ident : string) (rpc : bool)
| PyMethod (func : pyobj)
| PyOther (ident : string) (rpc : bool).

(** The module's [__name__] *)
Definition __name__ : string := "aiozmq.rpc".

Definition KeyError : pyexc := PyExc "builtins" "KeyError" [].

(** [isinstance(e, cls)] for the class [module.name]; the model raises no
    instance of a proper subclass of the classes it catches. *)
Definition exc_isinstance (module name : string) (e : pyexc) : bool :=
  bool_decide (exc_module e = module ∧ exc_name e = name).

(** [class GenericError(Error)]: [__init__(self, exc_type, args)] passes both
    to [Exception.__init__], so [self.args == (exc_type, args)];
    [self.exc_type] and [self.arguments] are the two components. *)
Definition GenericError (exc_type args : value) : pyexc :=
  PyExc __name__ "GenericError" [exc_type; args].

(** [class NotFoundError(Error)] *)
Definition NotFoundError (args : list value) : pyexc :=
  PyExc __name__ "NotFoundError" args.

(** A class as the error table uses it: what calling it on [*args] gives. *)
Definition constructor : Type := list value → result pyexc.

(** A class that keeps [BaseException.__init__]: [cls( *args).args == args] *)
Definition standard_class (module name : string) : constructor := λ args,
  Ok (PyExc module name args).

Definition GenericError_class : constructor := λ args,
  match args with
  | [exc_type; a] => Ok (GenericError exc_type a)
  | _ => Raise TypeError
  end.

Definition NotFoundError_class : constructor := λ args,
  Ok (NotFoundError args).

(** An attribute of the [builtins] module: a class (an exception class or
    not) or anything else. *)
Inductive builtin_object : Type :=
| BuiltinClass (is_exception : bool) (cls : constructor)
| BuiltinOther.

(** [AbstractHandler.__subclasshook__]: any class with [__getitem__] in its
    [__mro__], whatever keys that [__getitem__] takes *)
Definition isinstance_AbstractHandler (o : pyobj) : bool :=
  match o with
  | PyHandler _ _ | PyCustom _ _ _ | PySequence _ => true
  | PyFunction _ _ | PyMethod _ | PyOther _ _ => false
  end.

(** [handler[key]] for a [str] key: a sequence wants an integer or a slice,
    an object without [__getitem__] is not subscriptable. *)
Definition getitem (handler : pyobj) (key : string) : result pyobj :=
  match handler with
  | PyHandler items _ =>
      match items !! key with
      | Some val => Ok val
      | None => Raise KeyError
      end
  | PyCustom _ lookup _ => lookup key
  | PySequence _ => Raise TypeError
  | PyFunction _ _ | PyMethod _ | PyOther _ _ => Raise TypeError
  end.

(** Whether [getattr(o, '__rpc__')] succeeds; a bound method forwards the
    attribute lookup to its function. *)
Fixpoint hasattr_rpc (o : pyobj) : bool :=
  match o with
  | PyHandler _ rpc | PyCustom _ _ rpc | PyFunction _ rpc | PyOther _ rpc =>
      rpc
  | PySequence _ => false
  | PyMethod func => hasattr_rpc func
  end.

(** [def method(func)]: [func.__rpc__ = {}]. A bound method takes no new
    attribute, and neither does a [str], [list] or [tuple]. *)
Definition method (func : pyobj) : result pyobj :=
  match func with
  | PyFunction ident _ => Ok (PyFunction ident true)
  | PyHandler items _ => Ok (PyHandler items true)
  | PyCustom ident lookup _ => Ok (PyCustom ident lookup true)
  | PyOther ident _ => Ok (PyOther ident true)
  | PyMethod _ | PySequence _ => Raise AttributeError
  end.

(** ** Futures and log records *)

Inductive fut_state : Type :=
| Pending
| Cancelled
| Finished (val : value)
| Failed (exc : pyexc).

(** [asyncio.Future.set_exception] does not take a [StopIteration]: it
    raises [TypeError] in its place. *)
Definition refused_by_future (exc : pyexc) : bool :=
  exc_isinstance "builtins" "StopIteration" exc.

Inductive log_record : Type :=
| Critical (msg : string).

(** ** The [struct] module

    The formats of the file all start with [=]: native byte order, standard
    sizes, no padding. [H] is an unsigned 16-bit integer, [L] an unsigned
    32-bit integer, [d] an IEEE double and [?] a boolean byte. The code only
    carries the double (a timestamp) around, so it is kept as its 64-bit
    pattern. *)

Inductive byteorder : Type := LittleEndian | BigEndian.

Definition byte_of_Z (z : Z) : Byte.byte :=
  default Byte.x00 (Byte.of_N (Z.to_N z)).
Definition Z_of_byte (b : Byte.byte) : Z := Z.of_N (Byte.to_N b).

(** ** A small codec

    The protocols take the packer, the unpacker and the UTF-8 codec as
    parameters. This instance runs the model on concrete messages; it is not
    part of the properties. It has the msgpack encodings of [None], the
    booleans, the integers below 128, ASCII strings shorter than 32
    characters, and arrays and maps of fewer than 16 items. The unpacker
    keeps the bytes it was fed and has not consumed, and gives tuples back
    as lists. *)

Module MiniMsgpack.

Definition OutOfData : pyexc := PyExc "msgpack.exceptions" "OutOfData" [].
Definition UnicodeError : pyexc := PyExc "builtins" "UnicodeError" [].

Definition ascii_bytes (s : string) : bytes :=
  byte_of_ascii <$> String.list_ascii_of_string s.
Definition ascii_string (b : bytes) : string :=
  String.string_of_list_ascii (ascii_of_byte <$> b).
Definition is_ascii (b : bytes) : bool :=
  forallb (λ x, Z_of_byte x <? 128) b.

Definition utf8_encode (s : string) : result bytes :=
  if is_ascii (ascii_bytes s) then Ok (ascii_bytes s) else Raise UnicodeError.
Definition utf8_decode (b : bytes) : result string :=
  if is_ascii b then Ok (ascii_string b) else Raise UnicodeError.

Fixpoint pack (v : value) : result bytes :=
  let pack_items :=
    fix pack_items (items : list value) : result bytes :=
      match items with
      | [] => Ok []
      | item :: items =>
          b ← pack item; bs ← pack_items items; mret (b ++ bs)%list
      end in
  let pack_pairs :=
    fix pack_pairs (items : list (value * value)) : result bytes :=
      match items with
      | [] => Ok []
      | (k, v) :: items =>
          bk ← pack k; bv ← pack v; bs ← pack_pairs items;
          mret (bk ++ bv ++ bs)%list
      end in
  match v with
  | VNone => Ok [Byte.xc0]
  | VBool false => Ok [Byte.xc2]
  | VBool true => Ok [Byte.xc3]
  | VInt z =>
      if decide (0 ≤ z < 128) then Ok [byte_of_Z z] else Raise TypeError
  | VStr s =>
      if bool_decide (length (ascii_bytes s) < 32)%nat
         && is_ascii (ascii_bytes s)
      then Ok (byte_of_Z (0xa0 + Z.of_nat (length (ascii_bytes s)))
               :: ascii_bytes s)
      else Raise TypeError
  | VTuple items | VList items =>
      if decide (length items < 16)%nat
      then bs ← pack_items items;
           mret (byte_of_Z (0x90 + Z.of_nat (length items)) :: bs)
      else Raise TypeError
  | VDict items =>
      if decide (length items < 16)%nat
      then bs ← pack_pairs items;
           mret (byte_of_Z (0x80 + Z.of_nat (length items)) :: bs)
      else Raise TypeError
  | VBytes _ | VObject _ => Raise TypeError
  end.

Fixpoint decode (fuel : nat) (b : bytes) : option (value * bytes) :=
  match fuel, b with
  | S fuel, tag :: rest =>
      let decode_items :=
        fix decode_items (n : nat) (b : bytes) : option (list value * bytes) :=
          match n with
          | O => Some ([], b)
          | S n =>
              '(item, b) ← decode fuel b;
              '(items, b) ← decode_items n b;
              Some (item :: items, b)
          end in
      let decode_pairs :=
        fix decode_pairs (n : nat) (b : bytes) :
            option (list (value * value) * bytes) :=
          match n with
          | O => Some ([], b)
          | S n =>
              '(k, b) ← decode fuel b;
              '(v, b) ← decode fuel b;
              '(items, b) ← decode_pairs n b;
              Some ((k, v) :: items, b)
          end in
      let t := Z_of_byte tag in
      if t <? 0x80 then Some (VInt t, rest)
      else if t <? 0x90 then
        '(items, rest) ← decode_pairs (Z.to_nat (t - 0x80)) rest;
        Some (VDict items, rest)
      else if t <? 0xa0 then
        '(items, rest) ← decode_items (Z.to_nat (t - 0x90)) rest;
        Some (VList items, rest)
      else if t <? 0xc0 then
        let n := Z.to_nat (t - 0xa0) in
        if decide (n ≤ length rest)%nat
        then Some (VStr (ascii_string (take n rest)), drop n rest)
        else None
      else if t =? 0xc0 then Some (VNone, rest)
      else if t =? 0xc2 then Some (VBool false, rest)
      else if t =? 0xc3 then Some (VBool true, rest)
      else None
  | _, _ => None
  end.

Definition new_unpacker : bytes := [].

Definition feed (b : bytes) : M bytes unit :=
  modify (λ buffer, buffer ++ b)%list.

Definition unpack : M bytes value := λ buffer,
  match decode (S (length buffer)) buffer with
  | Some (v, rest) => (Ok v, rest)
  | None => (Raise OutOfData, buffer)
  end.

(** A few names of [builtins] *)
Definition builtins : list (string * builtin_object) :=
  [("ValueError", BuiltinClass true (standard_class "builtins" "ValueError"));
   ("KeyError", BuiltinClass true (standard_class "builtins" "KeyError"));
   ("OSError", BuiltinClass true (standard_class "builtins" "OSError"));
   ("IOError", BuiltinClass true (standard_class "builtins" "OSError"));
   ("KeyboardInterrupt",
    BuiltinClass false (standard_class "builtins" "KeyboardInterrupt"));
   ("int", BuiltinClass false (λ _, Raise TypeError));
   ("len", BuiltinOther)].

End MiniMsgpack.

Section Model.

(** [sys.byteorder] of the host *)
Variable native : byteorder.

Definition in_order (b : bytes) : bytes :=
  match native with LittleEndian => b | BigEndian => reverse b end.

(** An unsigned integer field of [n] bytes; [struct.error] when the argument
    is out of range. *)
Definition pack_uint (n x : Z) : result bytes :=
  if decide (0 ≤ x < 2 ^ (8 * n))
  then Ok (in_order (byte_of_Z <$> Z_to_little_endian n 8 x))
  else Raise struct_error.
Definition unpack_uint (b : bytes) : Z :=
  little_endian_to_Z 8 (Z_of_byte <$> in_order b).

Definition pack_double (bits : Z) : bytes :=
  in_order (byte_of_Z <$> Z_to_little_endian 8 8 bits).
Definition unpack_double (b : bytes) : Z := unpack_uint b.

Definition pack_bool (b : bool) : bytes :=
  [if b then Byte.x01 else Byte.x00].
Definition unpack_bool (b : bytes) : bool :=
  negb (forallb (Byte.eqb Byte.x00) b).

(** [struct.Struct('=HH').pack(a, b)] *)
Definition pack_HH (a b : Z) : result bytes :=
  ba ← pack_uint 2 a; bb ← pack_uint 2 b; mret (ba ++ bb)%list.

(** [struct.Struct('=Ld').pack(n, t)] *)
Definition pack_Ld (n t : Z) : result bytes :=
  bn ← pack_uint 4 n; mret (bn ++ pack_double t)%list.

(** [struct.Struct('=Ld?').pack(n, t, flag)] *)
Definition pack_Ldq (n t : Z) (flag : bool) : result bytes :=
  bn ← pack_uint 4 n; mret (bn ++ pack_double t ++ pack_bool flag)%list.

(** [struct.Struct('=HHLd').unpack(b)]: 16 bytes *)
Definition unpack_HHLd (b : bytes) : result (Z * Z * Z * Z) :=
  if decide (length b = 16%nat)
  then Ok (unpack_uint (take 2 b), unpack_uint (take 2 (drop 2 b)),
           unpack_uint (take 4 (drop 4 b)),
           unpack_double (take 8 (drop 8 b)))
  else Raise struct_error.

(** [struct.Struct('=HHLd?').unpack(b)]: 17 bytes *)
Definition unpack_HHLdq (b : bytes) : result (Z * Z * Z * Z * bool) :=
  if decide (length b = 17%nat)
  then Ok (unpack_uint (take 2 b), unpack_uint (take 2 (drop 2 b)),
           unpack_uint (take 4 (drop 4 b)),
           unpack_double (take 8 (drop 8 b)),
           unpack_bool (drop 16 b))
  else Raise struct_error.

(** *** External collaborators *)

(** The state of an [_Unpacker] and a fresh one *)
Context {U : Type}.
Variable new_unpacker : U.
(** [unpacker.feed(b)] and [unpacker.unpack()]: both may raise, both may
    change the unpacker. *)
Variable unpacker_feed : bytes → M U unit.
Variable unpacker_unpack : M U value.
(** [packer.pack(v)] *)
Variable packer_pack : value → result bytes.
(** [s.encode('utf-8')] and [b.decode('utf-8')] *)
Variable utf8_encode : string → result bytes.
Variable utf8_decode : bytes → result string.
(** [dir(builtins)] with [getattr(builtins, name)] for each name *)
Variable builtins : list (string * builtin_object).
(** [asyncio.iscoroutinefunction(func)] and [func( *args, **kwargs)] *)
Variable iscoroutinefunction : pyobj → bool.
Variable invoke : pyobj → value → value → result value.
(** [isinstance(exc, Exception)], which is what [except Exception] asks: a
    [KeyboardInterrupt], a [SystemExit] or a [GeneratorExit] is a
    [BaseException] only. *)
Variable isinstance_Exception : pyexc → bool.

(** ** [class _BaseProtocol]

    [loop] holds the futures of [self.loop] by identity, each with its state.
    [transport] is [None] or the transport, which is given by the messages
    written to it so far. [logger] collects the records sent to
    [aiozmq.log.logger]. *)
Record base_protocol : Type := BaseProtocol {
  loop : gmap nat fut_state;
  transport : option (list (list bytes));
  done_waiters : list nat;
  unpacker : U;
  logger : list log_record
}.

Definition set_loop (l : gmap nat fut_state) (self : base_protocol) :=
  BaseProtocol l (transport self) (done_waiters self) (unpacker self)
    (logger self).
Definition set_transport (t : option (list (list bytes)))
    (self : base_protocol) :=
  BaseProtocol (loop self) t (done_waiters self) (unpacker self) (logger self).
Definition set_done_waiters (w : list nat) (self : base_protocol) :=
  BaseProtocol (loop self) (transport self) w (unpacker self) (logger self).
Definition set_unpacker (u : U) (self : base_protocol) :=
  BaseProtocol (loop self) (transport self) (done_waiters self) u
    (logger self).
Definition set_logger (l : list log_record) (self : base_protocol) :=
  BaseProtocol (loop self) (transport self) (done_waiters self)
    (unpacker self) l.

(** [_BaseProtocol.__init__(self, loop)] *)
Definition base_init (futures : gmap nat fut_state) : base_protocol :=
  BaseProtocol futures None [] new_unpacker [].

(** [asyncio.Future(loop=self.loop)]: a new pending future *)
Definition Future : M base_protocol nat := λ self,
  let fut := fresh (dom (loop self)) in
  (Ok fut, set_loop (<[fut := Pending]> (loop self)) self).

(** [fut.set_result(val)] and [fut.set_exception(exc)]: only a pending
    future takes an outcome. *)
Definition set_result (fut : nat) (val : value) : M base_protocol unit :=
  λ self,
  match loop self !! fut with
  | Some Pending =>
      (Ok tt, set_loop (<[fut := Finished val]> (loop self)) self)
  | _ => (Raise InvalidStateError, self)
  end.

Definition set_exception (fut : nat) (exc : pyexc) : M base_protocol unit :=
  λ self,
  match loop self !! fut with
  | Some Pending => (Ok tt, set_loop (<[fut := Failed exc]> (loop self)) self)
  | _ => (Raise InvalidStateError, self)
  end.

(** [logger.critical(msg, ...)] *)
Definition logger_critical (msg : string) : M base_protocol unit :=
  modify (λ self, set_logger (logger self ++ [Critical msg])%list self).

(** [self.transport.write(msg)]; [None] has no [write]. *)
Definition transport_write (msg : list bytes) : M base_protocol unit :=
  λ self,
  match transport self with
  | Some written => (Ok tt, set_transport (Some (written ++ [msg])%list) self)
  | None => (Raise AttributeError, self)
  end.

(** The attribute lookup [self.transport.write], which Python does before it
    evaluates the arguments of the call *)
Definition transport_write_method : M base_protocol unit := λ self,
  match transport self with
  | Some _ => (Ok tt, self)
  | None => (Raise AttributeError, self)
  end.

(** [self.unpacker.feed(b)] followed by [self.unpacker.unpack()] *)
Definition feed_unpack (b : bytes) : M base_protocol value :=
  zoom unpacker set_unpacker (unpacker_feed b);;
  zoom unpacker set_unpacker unpacker_unpack.

Definition connection_made (written : list (list bytes)) :
    M base_protocol unit :=
  modify (set_transport (Some written)).

Definition connection_lost (exc : option pyexc) : M base_protocol unit :=
  modify (set_transport None);;
  waiters ← gets done_waiters;
  for_each waiters (λ waiter, set_result waiter VNone).

(** [_RPCServer.wait_closed], up to the point where it suspends: the waiter
    it registers, if any. *)
Definition wait_closed : M base_protocol (option nat) :=
  t ← gets transport;
  match t with
  | None => mret None
  | Some _ =>
      waiter ← Future;
      modify (λ self, set_done_waiters (done_waiters self ++ [waiter])%list
                        self);;
      mret (Some waiter)
  end.

(** ** [class _ClientProtocol] *)
Record client_protocol : Type := ClientProtocol {
  base : base_protocol;
  calls : gmap Z nat;
  prefix : bytes;
  counter : Z;
  error_table : gmap string constructor
}.

Definition set_base (b : base_protocol) (self : client_protocol) :=
  ClientProtocol b (calls self) (prefix self) (counter self)
    (error_table self).
Definition set_calls (c : gmap Z nat) (self : client_protocol) :=
  ClientProtocol (base self) c (prefix self) (counter self)
    (error_table self).
Definition set_counter (n : Z) (self : client_protocol) :=
  ClientProtocol (base self) (calls self) (prefix self) n (error_table self).

(** A method inherited from, or run on, the base part of a client *)
Definition on_base {A} (m : M base_protocol A) : M client_protocol A :=
  zoom base set_base m.

Definition _fill_error_table : gmap string constructor :=
  let error_table :=
    foldl (λ error_table '(name, val),
             match val with
             | BuiltinClass true cls =>
                 <["builtins." +:+ name := cls]> error_table
             | _ => error_table
             end) ∅ builtins in
  let error_table :=
    <[__name__ +:+ ".GenericError" := GenericError_class]> error_table in
  <[__name__ +:+ ".NotFoundError" := NotFoundError_class]> error_table.

(** [_ClientProtocol.__init__(self, loop)]; [pid] is [os.getpid()] and [rnd]
    is [random.randrange(0x10000)]. *)
Definition client_init (futures : gmap nat fut_state) (pid rnd : Z) :
    result client_protocol :=
  prefix ← pack_HH (pid `mod` 0x10000) rnd;
  mret (ClientProtocol (base_init futures) ∅ prefix 0 _fill_error_table).

(** [d.get(key)] on a dict with string keys *)
Definition dict_get {A} (d : gmap string A) (key : value) :
    result (option A) :=
  if hashable key
  then Ok (match key with VStr s => d !! s | _ => None end)
  else Raise TypeError.

Definition _translate_error (self : client_protocol)
    (exc_type exc_args : value) : result pyexc :=
  found ← dict_get (error_table self) exc_type;
  match found with
  | None => args ← tuple exc_args; mret (GenericError exc_type args)
  | Some found =>
      match py_iter exc_args with
      | Some args => found args
      | None => Raise TypeError
      end
  end.

(** The body of the [try] of [msg_received] *)
Definition msg_received_unpack (data : list bytes) :
    M client_protocol (Z * Z * Z * Z * bool * value) :=
  match data with
  | [header; banswer] =>
      '(pid, rnd, req_id, timestamp, is_error) ←
        lift_result (unpack_HHLdq header);
      answer ← on_base (feed_unpack banswer);
      mret (pid, rnd, req_id, timestamp, is_error, answer)
  | _ => raise ValueError
  end.

Definition msg_received (data : list bytes) : M client_protocol unit :=
  unpacked ← try_except
                (unpacked ← msg_received_unpack data; mret (Some unpacked))
                (λ _, on_base (logger_critical "Cannot unpack %r");;
                      mret None);
  match unpacked : option (Z * Z * Z * Z * bool * value) with
  | None => mret tt
  | Some (pid, rnd, req_id, timestamp, is_error, answer) =>
      call ← gets (λ self, calls self !! req_id);
      modify (λ self, set_calls (delete req_id (calls self)) self);;
      match call with
      | None =>
          on_base (logger_critical
                     "Unknown answer id: %d (%d %d %f %d) -> %s")
      | Some call =>
          if is_error then
            match py_iter answer with
            | Some [exc_type; exc_args] =>
                self ← get;
                exc ← lift_result (_translate_error self exc_type exc_args);
                on_base (set_exception call exc)
            | _ => raise TypeError
            end
          else on_base (set_result call answer)
      end
  end.

(** [now] is what [time.time()] returns. *)
Definition _new_id (now : Z) : M client_protocol (bytes * Z) :=
  modify (λ self, set_counter (counter self + 1) self);;
  n ← gets counter;
  (if decide (n > 0xffffffff) then modify (set_counter 0) else mret tt);;
  self ← get;
  suffix ← lift_result (pack_Ld (counter self) now);
  mret ((prefix self ++ suffix)%list, counter self).

Definition call (now : Z) (name : string) (args kwargs : value) :
    M client_protocol nat :=
  bname ← lift_result (utf8_encode name);
  bargs ← lift_result (packer_pack args);
  bkwargs ← lift_result (packer_pack kwargs);
  '(header, req_id) ← _new_id now;
  registered ← gets (λ self, calls self !! req_id);
  if registered is Some _ then raise AssertionError
  else
    fut ← on_base Future;
    modify (λ self, set_calls (<[req_id := fut]> (calls self)) self);;
    on_base (transport_write [header; bname; bargs; bkwargs]);;
    mret fut.

(** ** [class _ServerProtocol] *)
Record server_protocol : Type := ServerProtocol {
  sbase : base_protocol;
  handler : pyobj;
  sprefix : bytes
}.

Definition set_sbase (b : base_protocol) (self : server_protocol) :=
  ServerProtocol b (handler self) (sprefix self).

Definition on_sbase {A} (m : M base_protocol A) : M server_protocol A :=
  zoom sbase set_sbase m.

(** [_ServerProtocol.__init__(self, loop, handler)]; [prepare_handler] does
    nothing. *)
Definition server_init (futures : gmap nat fut_state) (root : pyobj)
    (pid rnd : Z) : result server_protocol :=
  prefix ← pack_HH (pid `mod` 0x10000) rnd;
  mret (ServerProtocol (base_init futures) root prefix).

(** The [for part in namespaces.split('.')] loop of [dispatch] *)
Fixpoint dispatch_namespaces (name : string) (parts : list string)
    (handler : pyobj) : result pyobj :=
  match parts with
  | [] => Ok handler
  | part :: parts =>
      match getitem handler part with
      | Raise exc =>
          if exc_isinstance "builtins" "KeyError" exc
          then Raise (NotFoundError [VStr name])
          else Raise exc
      | Ok handler =>
          if negb (isinstance_AbstractHandler handler)
          then Raise (NotFoundError [VStr name])
          else dispatch_namespaces name parts handler
      end
  end.

Definition dispatch (self : server_protocol) (name : string) :
    result pyobj :=
  if decide (name = "") then Raise (NotFoundError [VStr name])
  else
    let '(namespaces, sep, method) := rpartition "." name in
    handler ←
      (if decide (namespaces = "") then Ok (handler self)
       else dispatch_namespaces name (split "." namespaces) (handler self));
    match getitem handler method with
    | Raise exc =>
        if exc_isinstance "builtins" "KeyError" exc
        then Raise (NotFoundError [VStr name])
        else Raise exc
    | Ok func =>
        let holder := match func with PyMethod f => f | _ => func end in
        if hasattr_rpc holder then Ok func
        else Raise (NotFoundError [VStr name])
    end.

(** What [msg_received] leaves with the loop: a future that is already
    completed with [outcome], or a task that runs the coroutine object [coro]
    that [func( *args, **kwargs)] returned; in both cases
    [process_call_result] is the done callback, with [req_id] and [peer].

    The [try] around the call of a function that is not a coroutine function
    has [except Exception as exc: fut.set_exception(exc)]: an exception that
    is not an [Exception] is not caught, and what [set_exception] raises in
    the handler leaves [msg_received] as well. *)
Inductive server_call : Type :=
| Completed (outcome : result value) (req_id : Z) (peer : bytes)
| Task (coro : value) (req_id : Z) (peer : bytes).

Definition server_msg_received (data : list bytes) :
    M server_protocol server_call :=
  match data with
  | [peer; header; bname; bargs; bkwargs] =>
      '(pid, rnd, req_id, timestamp) ← lift_result (unpack_HHLd header);
      name ← lift_result (utf8_decode bname);
      self ← get;
      match dispatch self name with
      | Raise exc =>
          if exc_isinstance __name__ "NotFoundError" exc
          then mret (Completed (Raise exc) req_id peer)
          else raise exc
      | Ok func =>
          args ← on_sbase (feed_unpack bargs);
          kwargs ← on_sbase (feed_unpack bkwargs);
          if iscoroutinefunction func
          then coro ← lift_result (invoke func args kwargs);
               mret (Task coro req_id peer)
          else
            match invoke func args kwargs with
            | Ok ret => mret (Completed (Ok ret) req_id peer)
            | Raise exc =>
                if negb (isinstance_Exception exc) then raise exc
                else if refused_by_future exc then raise TypeError
                else mret (Completed (Raise exc) req_id peer)
            end
      end
  | _ => raise ValueError
  end.

(** [fut] is what [fut.result()] does; [now] is the reading of the clock in
    the [try] and [now'] the one in the [except]. *)
Definition process_call_result (now now' : Z) (fut : result value)
    (req_id : Z) (peer : bytes) : M server_protocol unit :=
  try_except
    (ret ← lift_result fut;
     self ← get;
     suffix ← lift_result (pack_Ldq req_id now false);
     let prefix := (sprefix self ++ suffix)%list in
     on_sbase transport_write_method;;
     payload ← lift_result (packer_pack ret);
     on_sbase (transport_write [peer; prefix; payload]))
    (λ exc,
     self ← get;
     suffix ← lift_result (pack_Ldq req_id now' true);
     let prefix := (sprefix self ++ suffix)%list in
     let exc_info :=
       VTuple [VStr (exc_module exc +:+ "." +:+ exc_name exc);
               VTuple (exc_args exc)] in
     on_sbase transport_write_method;;
     payload ← lift_result (packer_pack exc_info);
     on_sbase (transport_write [peer; prefix; payload])).

(** A sequence of [call] invocations with no response in between, each with
    its reading of the clock; the outcomes come back in order. *)
Fixpoint call_all (requests : list (Z * string * value * value))
    (self : client_protocol) : list (result nat) * client_protocol :=
  match requests with
  | [] => ([], self)
  | (now, name, args, kwargs) :: requests =>
      let '(r, self) := call now name args kwargs self in
      let '(rs, self) := call_all requests self in
      (r :: rs, self)
  end.

(** The futures that a sequence of calls returned *)
Definition returned (rs : list (result nat)) : list nat :=
  omap (λ r, match r with Ok fut => Some fut | Raise _ => None end) rs.

(** The ways in which the [try] of the client's [msg_received] fails: the
    message is not made of two frames, the header is not the 17 bytes that
    [=HHLd?] takes, or feeding and unpacking the payload raises. *)
Definition decode_failure (data : list bytes) (self : client_protocol) : Prop :=
  length data ≠ 2%nat ∨
  ∃ header banswer, data = [header; banswer] ∧
    (length header ≠ 17%nat ∨
     ∃ exc b, feed_unpack banswer (base self) = (Raise exc, b)).

(** ** [class _MethodCall] and [RPCClient.rpc]

    [_proto] is the client the methods run on; [_names] is the tuple of the
    attribute names taken so far. *)
Record _MethodCall : Type := MethodCall { _names : list string }.

(** [RPCClient.rpc] *)
Definition rpc : _MethodCall := MethodCall [].

(** [_MethodCall.__getattr__(self, name)], which Python calls for the names
    that the normal lookup does not find: not for [_proto] and [_names]. *)
Definition __getattr__ (self : _MethodCall) (name : string) : _MethodCall :=
  MethodCall (_names self ++ [name])%list.

(** [_MethodCall.__call__(self, *args, **kwargs)]: [args] is a tuple and
    [kwargs] a dict with string keys. *)
Definition __call__ (now : Z) (self : _MethodCall) (args : list value)
    (kwargs : list (string * value)) : M client_protocol nat :=
  match _names self with
  | [] => raise ValueError
  | _ :: _ =>
      call now (join "." (_names self)) (VTuple args)
        (VDict ((λ kv, (VStr kv.1, kv.2)) <$> kwargs))
  end.

(** [n] calls of [_new_id] in a row, with the readings of the clock; the ids
    they return. *)
Fixpoint new_ids (nows : list Z) : M client_protocol (list Z) :=
  match nows with
  | [] => mret []
  | now :: nows =>
      '(_, req_id) ← _new_id now;
      req_ids ← new_ids nows;
      mret (req_id :: req_ids)
  end.

(** An attribute name as [rpc.a.b] can spell it: not empty, no dot. *)
Definition segment (s : string) : Prop := s ≠ "" ∧ contains "." s = false.

(** *** Name resolution, in the words of the specification

    A dotted name is split on its last dot into a namespace path and a leaf;
    a name without a dot, or with nothing before its last dot, has an empty
    path. The path resolves when every segment is found by lookup and is
    itself a handler; the leaf is then looked up on the last handler. *)
Definition namespace_path (name : string) : list string :=
  let namespaces := (rpartition "." name).1.1 in
  if decide (namespaces = "") then [] else split "." namespaces.

Definition leaf_name (name : string) : string := (rpartition "." name).2.

Definition handler_lookup (handler : pyobj) (key : string) : option pyobj :=
  match handler with
  | PyHandler items _ => items !! key
  | PyCustom _ lookup _ =>
      match lookup key with Ok val => Some val | Raise _ => None end
  | _ => None
  end.

Fixpoint resolve_path (handler : pyobj) (path : list string) : option pyobj :=
  match path with
  | [] => Some handler
  | part :: path =>
      match handler_lookup handler part with
      | Some child =>
          if isinstance_AbstractHandler child then resolve_path child path
          else None
      | None => None
      end
  end.

Definition resolve (root : pyobj) (name : string) : option pyobj :=
  if decide (name = "") then None
  else match resolve_path root (namespace_path name) with
       | Some handler => handler_lookup handler (leaf_name name)
       | None => None
       end.

(** The exception other than [KeyError] that a lookup of the walk along
    [keys] raises, if any: [TypeError] on an object that takes no [str] key
    (an object without [__getitem__], or a [str], [list] or [tuple]), and
    what a [__getitem__] of its own raises. A child that is found is walked
    into only when it passes the [AbstractHandler] test, which a sequence
    does. *)
Fixpoint lookup_error (handler : pyobj) (keys : list string) : option pyexc :=
  match keys with
  | [] => None
  | key :: keys =>
      match getitem handler key with
      | Ok child =>
          if isinstance_AbstractHandler child then lookup_error child keys
          else None
      | Raise exc =>
          if exc_isinstance "builtins" "KeyError" exc then None else Some exc
      end
  end.

(** The keys that [dispatch] looks up for [name], in order *)
Definition lookup_keys (name : string) : list string :=
  (namespace_path name ++ [leaf_name name])%list.

(** The value, or for a bound method its function, has the endpoint
    marker. *)
Definition carries_marker (func : pyobj) : bool :=
  match func with
  | PyMethod f => hasattr_rpc f
  | _ => hasattr_rpc func
  end.

(** What holds of a client in every state that [client_init], [call],
    [msg_received], [wait_closed] and [connection_made] lead to: the counter
    is not negative, the waiters are pending futures registered once, and
    the futures of the calls are futures of the loop that are not waiters. *)
Definition client_inv (self : client_protocol) : Prop :=
  0 ≤ counter self ∧
  NoDup (done_waiters (base self)) ∧
  (∀ w, w ∈ done_waiters (base self) → loop (base self) !! w = Some Pending) ∧
  (∀ req_id fut, calls self !! req_id = Some fut →
     fut ∈ dom (loop (base self)) ∧ fut ∉ done_waiters (base self)).

(** The value the counter takes in [_new_id] *)
Definition next_id (n : Z) : Z :=
  if decide (n + 1 > 0xffffffff) then 0 else n + 1.

(** * Properties *)

(** ** Headers *)

Lemma Z_of_byte_of_Z z : 0 ≤ z < 256 → Z_of_byte (byte_of_Z z) = z.
Proof.
  intros Hz. unfold Z_of_byte, byte_of_Z.
  destruct (Byte.of_N (Z.to_N z)) as [b|] eqn:Hb; simpl.
  - apply Byte.to_of_N in Hb. rewrite Hb. lia.
  - apply Byte.of_N_None_iff in Hb. lia.
Qed.

Lemma Z_of_byte_of_Z_list (l : list Z) :
  Forall (λ b, 0 ≤ b < 2 ^ 8) l → Z_of_byte <$> (byte_of_Z <$> l) = l.
Proof.
  induction 1 as [|z l Hz _ IH]; csimpl; [done|].
  rewrite Z_of_byte_of_Z, IH; [done|]. change (2 ^ 8) with 256 in Hz. lia.
Qed.

Lemma in_order_involutive b : in_order (in_order b) = b.
Proof. unfold in_order. destruct native; [done|]. apply reverse_involutive. Qed.

Lemma length_in_order b : length (in_order b) = length b.
Proof. unfold in_order. destruct native; [done|]. apply length_reverse. Qed.

Lemma length_pack_uint n x b :
  0 ≤ n → pack_uint n x = Ok b → length b = Z.to_nat n.
Proof.
  unfold pack_uint. intros Hn. case_decide; [|done]. intros [= <-].
  rewrite length_in_order, length_fmap.
  pose proof (length_Z_to_little_endian n 8 x Hn). lia.
Qed.

Lemma unpack_pack_uint n x b :
  0 ≤ n → pack_uint n x = Ok b → unpack_uint b = x.
Proof.
  unfold pack_uint, unpack_uint. intros Hn. case_decide as Hx; [|done].
  intros [= <-]. rewrite in_order_involutive.
  rewrite Z_of_byte_of_Z_list by (apply Z_to_little_endian_bound; lia).
  rewrite little_endian_to_Z_to_little_endian by lia.
  apply Z.mod_small. by rewrite Z.mul_comm.
Qed.

Lemma length_pack_double t : length (pack_double t) = 8%nat.
Proof.
  unfold pack_double. rewrite length_in_order, length_fmap.
  pose proof (length_Z_to_little_endian 8 8 t). lia.
Qed.

Lemma unpack_pack_double t : unpack_double (pack_double t) = t `mod` 2 ^ 64.
Proof.
  unfold unpack_double, unpack_uint, pack_double. rewrite in_order_involutive.
  rewrite Z_of_byte_of_Z_list by (apply Z_to_little_endian_bound; lia).
  by rewrite little_endian_to_Z_to_little_endian by lia.
Qed.

Lemma unpack_pack_bool flag : unpack_bool (pack_bool flag) = flag.
Proof. by destruct flag. Qed.

(** A response header written as [RESP_PREFIX.pack(pid, rnd) +
    RESP_SUFFIX.pack(req_id, t, flag)] is read back by [RESP.unpack]. *)
Lemma unpack_response_header pid rnd req_id t flag prefix suffix :
  pack_HH pid rnd = Ok prefix →
  pack_Ldq req_id t flag = Ok suffix →
  unpack_HHLdq (prefix ++ suffix)%list
  = Ok (pid, rnd, req_id, t `mod` 2 ^ 64, flag).
Proof.
  unfold pack_HH, pack_Ldq. simpl.
  destruct (pack_uint 2 pid) as [b1|] eqn:H1; [simpl|done].
  destruct (pack_uint 2 rnd) as [b2|] eqn:H2; [simpl|done].
  destruct (pack_uint 4 req_id) as [b3|] eqn:H3; [simpl|done].
  intros [= <-] [= <-].
  pose proof (length_pack_uint 2 _ _ ltac:(lia) H1) as L1.
  pose proof (length_pack_uint 2 _ _ ltac:(lia) H2) as L2.
  pose proof (length_pack_uint 4 _ _ ltac:(lia) H3) as L3.
  pose proof (length_pack_double t) as L4.
  change (Z.to_nat 2) with 2%nat in *. change (Z.to_nat 4) with 4%nat in *.
  pose proof (unpack_pack_double t) as H4. remember (pack_double t) as b4.
  unfold unpack_HHLdq. rewrite decide_True.
  2:{ rewrite !length_app. simpl. lia. }
  clear Heqb4.
  do 3 (destruct b1 as [|? b1]; try done).
  do 3 (destruct b2 as [|? b2]; try done).
  do 5 (destruct b3 as [|? b3]; try done).
  do 9 (destruct b4 as [|? b4]; try done).
  cbn [app take drop]. rewrite take_0, drop_0, H4.
  rewrite (unpack_pack_uint 2 _ _ ltac:(lia) H1).
  rewrite (unpack_pack_uint 2 _ _ ltac:(lia) H2).
  rewrite (unpack_pack_uint 4 _ _ ltac:(lia) H3).
  by rewrite unpack_pack_bool.
Qed.

(** ** Request ids *)

(** Unfolds the monad so that a method applied to a state computes. *)
Ltac run :=
  unfold mbind, M_bind, mret, M_ret, bind, ret, raise, gets, get, modify,
    lift_result, try_except, on_base, on_sbase, zoom;
  cbn -[_new_id feed_unpack msg_received_unpack pack_Ld pack_Ldq pack_HH
       unpack_HHLd unpack_HHLdq].

Lemma next_id_range n : 0 ≤ n → 0 ≤ next_id n ≤ 0xffffffff.
Proof. unfold next_id. case_decide; lia. Qed.

Lemma pack_Ld_ok n now :
  0 ≤ n ≤ 0xffffffff → ∃ suffix, pack_Ld n now = Ok suffix.
Proof.
  intros Hn. unfold pack_Ld, pack_uint. rewrite decide_True.
  - eexists. reflexivity.
  - change (2 ^ (8 * 4)) with 4294967296. lia.
Qed.

(** [_new_id] on a client whose counter is not negative: the counter moves
    to [next_id], which is also the id returned, and nothing else changes. *)
Lemma new_id_spec now self :
  0 ≤ counter self →
  ∃ suffix,
    pack_Ld (next_id (counter self)) now = Ok suffix ∧
    _new_id now self
    = (Ok ((prefix self ++ suffix)%list, next_id (counter self)),
       set_counter (next_id (counter self)) self).
Proof.
  intros Hc.
  destruct (pack_Ld_ok (next_id (counter self)) now) as [suffix Hs].
  { by apply next_id_range. }
  exists suffix. split; [done|].
  unfold _new_id, next_id in *. run.
  destruct (decide (counter self + 1 > 4294967295));
    cbn -[pack_Ld]; rewrite Hs; done.
Qed.

(** C5. Request-id wrap: [_new_id] increments the counter and, when the
    incremented value exceeds 0xFFFFFFFF, sets it to 0 and returns 0. So a
    counter at [v < 0xFFFFFFFF] gives [v + 1], and the allocation after the
    one that returned 0xFFFFFFFF returns 0. The counter of a client is never
    negative: it starts at 0 and only [_new_id] writes it. *)
Theorem new_id_wrap now now' self :
  0 ≤ counter self →
  (∃ header self',
     _new_id now self = (Ok (header, counter self'), self') ∧
     counter self' = (if decide (counter self + 1 > 0xffffffff) then 0
                      else counter self + 1) ∧
     0 ≤ counter self' ≤ 0xffffffff) ∧
  (counter self < 0xffffffff →
   ∃ header self',
     _new_id now self = (Ok (header, counter self + 1), self')) ∧
  (∀ header self',
     _new_id now self = (Ok (header, 0xffffffff), self') →
     ∃ header' self'',
       _new_id now' self' = (Ok (header', 0), self'') ∧ counter self'' = 0).
Proof.
  intros Hc. destruct (new_id_spec now self Hc) as (suffix & _ & Hid).
  split; [|split].
  - exists (prefix self ++ suffix)%list, (set_counter (next_id (counter self)) self).
    split; [exact Hid|]. split; [done|]. by apply next_id_range.
  - intros Hlt. eexists _, _. rewrite Hid. unfold next_id.
    by rewrite decide_False by lia.
  - intros header self' Hret. rewrite Hid in Hret.
    injection Hret as _ Hn Hself. subst self'.
    destruct (new_id_spec now' (set_counter (next_id (counter self)) self))
      as (suffix' & _ & Hid'); [simpl; lia|].
    eexists _, _. rewrite Hid'. simpl. rewrite Hn. done.
Qed.

(** ** The call registry *)

(** What one [call] does to the registry and to the futures of the loop. *)
Lemma call_spec now name args kwargs self r self' :
  0 ≤ counter self →
  call now name args kwargs self = (r, self') →
  0 ≤ counter self' ∧
  calls self ⊆ calls self' ∧
  dom (loop (base self)) ⊆ dom (loop (base self')) ∧
  ∀ fut, r = Ok fut →
    (fut ∉ dom (loop (base self))) ∧ fut ∈ dom (loop (base self')) ∧
    calls self !! counter self' = None ∧
    calls self' = <[counter self' := fut]> (calls self).
Proof.
  intros Hc. unfold call. run.
  assert (∀ e, (Raise e, self) = (r, self') → 0 ≤ counter self' ∧
    calls self ⊆ calls self' ∧
    dom (loop (base self)) ⊆ dom (loop (base self')) ∧
    ∀ fut, r = Ok fut →
      (fut ∉ dom (loop (base self))) ∧ fut ∈ dom (loop (base self')) ∧
      calls self !! counter self' = None ∧
      calls self' = <[counter self' := fut]> (calls self)) as Hraise.
  { intros e [= <- <-]. done. }
  destruct (utf8_encode name) as [bname|]; [|by apply Hraise].
  destruct (packer_pack args) as [bargs|]; [|by apply Hraise].
  destruct (packer_pack kwargs) as [bkwargs|]; [|by apply Hraise].
  clear Hraise.
  destruct (new_id_spec now self Hc) as (suffix & _ & ->).
  pose proof (next_id_range _ Hc) as Hn.
  generalize dependent (next_id (counter self)). intros n Hn. cbn.
  destruct (calls self !! n) as [old|] eqn:Hreg; cbn.
  { intros [= <- <-]. cbn. split; [lia|]. done. }
  set (fut := fresh (dom (loop (base self)))).
  assert (fut ∉ dom (loop (base self))) as Hfresh by apply is_fresh.
  assert (calls self ⊆ <[n:=fut]> (calls self)) by by apply insert_subseteq.
  unfold transport_write. cbn.
  destruct (transport (base self)); cbn; intros [= <- <-]; cbn;
    (split; [lia|]); (split; [done|]); rewrite dom_insert_L;
    (split; [apply union_subseteq_r|]); [|done].
  intros ? [= <-]. split; [done|].
  split; [by apply elem_of_union_l, elem_of_singleton|]. done.
Qed.

(** When the id that [_new_id] hands out is already registered, [call] stops
    at its [assert]: no future is made, the registry is not written. *)
Lemma call_assertion now name args kwargs self bname bargs bkwargs
    header req_id self1 :
  utf8_encode name = Ok bname →
  packer_pack args = Ok bargs →
  packer_pack kwargs = Ok bkwargs →
  _new_id now self = (Ok (header, req_id), self1) →
  is_Some (calls self1 !! req_id) →
  call now name args kwargs self = (Raise AssertionError, self1).
Proof.
  intros Hname Hargs Hkwargs Hid [old Hold]. unfold call. run.
  rewrite Hname, Hargs, Hkwargs, Hid. cbn. by rewrite Hold.
Qed.

Lemma call_all_spec requests : ∀ self rs self',
  0 ≤ counter self →
  call_all requests self = (rs, self') →
  0 ≤ counter self' ∧
  calls self ⊆ calls self' ∧
  dom (loop (base self)) ⊆ dom (loop (base self')) ∧
  ∃ registered : list (Z * nat),
    returned rs = registered.*2 ∧
    NoDup registered.*1 ∧ NoDup registered.*2 ∧
    ∀ req_id fut, (req_id, fut) ∈ registered →
      calls self !! req_id = None ∧ calls self' !! req_id = Some fut ∧
      fut ∉ dom (loop (base self)).
Proof.
  induction requests as [|[[[now name] args] kwargs] requests IH];
    intros self rs self' Hc; cbn.
  { intros [= <- <-]. do 3 (split; [done|]). exists []. cbn.
    split; [done|]. do 2 (split; [constructor|]).
    intros ?? Hin. inversion Hin. }
  destruct (call now name args kwargs self) as [r self1] eqn:Hcall.
  destruct (call_all requests self1) as [rs1 self2] eqn:Hall.
  intros [= <- <-].
  destruct (call_spec _ _ _ _ _ _ _ Hc Hcall) as (Hc1 & Hsub1 & Hdom1 & Hok).
  destruct (IH _ _ _ Hc1 Hall) as (Hc2 & Hsub2 & Hdom2 & regs & Hret & Hnd1
    & Hnd2 & Hregs).
  split; [done|]. split; [by etrans|]. split; [by etrans|].
  destruct r as [fut|e];
    [change (returned (Ok fut :: rs1)) with (fut :: returned rs1)
    |change (returned (Raise e :: rs1)) with (returned rs1)].
  - destruct (Hok fut eq_refl) as (Hfresh & Hin & Hfree & Hcalls).
    exists ((counter self1, fut) :: regs). rewrite Hret. cbn.
    split; [done|]. split; [|split].
    + constructor; [|done]. intros Hx.
      apply list_elem_of_fmap in Hx as ((id & fut') & Heq & Hin').
      cbn in Heq. subst id. destruct (Hregs _ _ Hin') as (Hnone & _ & _).
      rewrite Hcalls, lookup_insert_eq in Hnone. done.
    + constructor; [|done]. intros Hx.
      apply list_elem_of_fmap in Hx as ((id & fut') & Heq & Hin').
      cbn in Heq. subst fut'. destruct (Hregs _ _ Hin') as (_ & _ & Hnew).
      done.
    + intros req_id fut' [[= -> ->]|Hin']%elem_of_cons.
      * split; [done|]. split; [|done].
        eapply lookup_weaken; [|exact Hsub2].
        rewrite Hcalls. apply lookup_insert_eq.
      * destruct (Hregs _ _ Hin') as (Hnone & Hsome & Hnew).
        split; [by eapply lookup_weaken_None|]. split; [done|].
        intros Hin0. by apply Hnew, Hdom1.
  - exists regs. split; [done|]. split; [done|]. split; [done|].
    intros req_id fut' Hin'.
    destruct (Hregs _ _ Hin') as (Hnone & Hsome & Hnew).
    split; [by eapply lookup_weaken_None|]. split; [done|].
    intros Hin0. by apply Hnew, Hdom1.
Qed.

(** C6. Unique in-flight ids: in a sequence of [call] invocations with no
    response in between, every call that returns a future has registered it
    under a request id that was free and that no other call of the sequence
    uses, and no entry that was there is written over. A fresh id that is
    already in the registry stops [call] with [AssertionError]. *)
Theorem call_ids_distinct requests self :
  0 ≤ counter self →
  (∀ rs self', call_all requests self = (rs, self') →
     calls self ⊆ calls self' ∧
     ∃ registered : list (Z * nat),
       returned rs = registered.*2 ∧
       NoDup registered.*1 ∧ NoDup registered.*2 ∧
       ∀ req_id fut, (req_id, fut) ∈ registered →
         calls self !! req_id = None ∧ calls self' !! req_id = Some fut) ∧
  (∀ now name args kwargs bname bargs bkwargs header req_id self1,
     utf8_encode name = Ok bname →
     packer_pack args = Ok bargs →
     packer_pack kwargs = Ok bkwargs →
     _new_id now self = (Ok (header, req_id), self1) →
     req_id ∈ dom (calls self) →
     call now name args kwargs self = (Raise AssertionError, self1) ∧
     calls self1 = calls self ∧ loop (base self1) = loop (base self)).
Proof.
  intros Hc. split.
  - intros rs self' Hall.
    destruct (call_all_spec _ _ _ _ Hc Hall)
      as (_ & Hsub & _ & regs & Hret & Hnd1 & Hnd2 & Hregs).
    split; [done|]. exists regs. do 3 (split; [done|]).
    intros req_id fut Hin. destruct (Hregs _ _ Hin) as (? & ? & ?).
    by split.
  - intros now name args kwargs bname bargs bkwargs header req_id self1
      Hname Hargs Hkwargs Hid Hin.
    destruct (new_id_spec now self Hc) as (suffix & _ & Hid').
    assert (Hid0 := Hid). rewrite Hid' in Hid.
    injection Hid as _ Hreq Hself. subst self1. split; [|done].
    apply (call_assertion now name args kwargs self bname bargs bkwargs
             header req_id _ Hname Hargs Hkwargs Hid0).
    cbn. by apply elem_of_dom.
Qed.

(** ** Responses *)

(** Feeding and unpacking touches the unpacker only. *)
Lemma feed_unpack_frame b self r self' :
  feed_unpack b self = (r, self') → self' = set_unpacker (unpacker self') self.
Proof.
  unfold feed_unpack. run.
  destruct (unpacker_feed b (unpacker self)) as [[[]|e] u1]; cbn.
  - destruct (unpacker_unpack u1) as [r' u2]. intros [= <- <-]. done.
  - intros [= <- <-]. done.
Qed.

Lemma set_base_id self : set_base (base self) self = self.
Proof. by destruct self. Qed.

Lemma msg_received_unpack_fails data self :
  decode_failure data self →
  ∃ exc u, msg_received_unpack data self
           = (Raise exc, set_base (set_unpacker u (base self)) self).
Proof.
  assert (self = set_base (set_unpacker (unpacker (base self)) (base self))
                   self) as Hself by by destruct self as [[]].
  intros [Hlen|(header & banswer & -> & [Hlen|(exc & b & Hfeed)])].
  - exists ValueError, (unpacker (base self)). rewrite <- Hself.
    destruct data as [|? [|? [|]]]; done.
  - exists struct_error, (unpacker (base self)). rewrite <- Hself.
    unfold msg_received_unpack, unpack_HHLdq. run.
    by rewrite decide_False.
  - unfold msg_received_unpack. run.
    destruct (unpack_HHLdq header) as [[[[[pid rnd] req_id] ts] is_error]|e].
    + cbn. rewrite Hfeed. cbn. apply feed_unpack_frame in Hfeed as ->.
      by eexists _, _.
    + exists e, (unpacker (base self)). by rewrite <- Hself.
Qed.

(** C8. Client decode-failure atomicity: when splitting the frames,
    unpacking the header or decoding the payload fails, [msg_received] logs
    at critical severity and returns; the call registry and every future
    are as they were, only the unpacker may have moved. *)
Theorem msg_received_decode_failure data self :
  decode_failure data self →
  ∃ u,
    msg_received data self
    = (Ok tt,
       set_base (set_logger (logger (base self) ++ [Critical "Cannot unpack %r"])
                   (set_unpacker u (base self))) self) ∧
    calls (msg_received data self).2 = calls self ∧
    loop (base (msg_received data self).2) = loop (base self).
Proof.
  intros (exc & u & Hfail)%msg_received_unpack_fails. exists u.
  assert (msg_received data self
    = (Ok tt,
       set_base (set_logger (logger (base self) ++ [Critical "Cannot unpack %r"])
                   (set_unpacker u (base self))) self)) as ->; [|done].
  unfold msg_received. run. rewrite Hfail. done.
Qed.

Lemma msg_received_unpack_ok header banswer self
    pid rnd req_id ts is_error answer b :
  unpack_HHLdq header = Ok (pid, rnd, req_id, ts, is_error) →
  feed_unpack banswer (base self) = (Ok answer, b) →
  msg_received_unpack [header; banswer] self
  = (Ok (pid, rnd, req_id, ts, is_error, answer), set_base b self).
Proof.
  intros Hheader Hfeed. unfold msg_received_unpack. run.
  rewrite Hheader. cbn. rewrite Hfeed. done.
Qed.

(** C7. Unmatched-response drop: a two-frame response that decodes and
    whose [req_id] is not a key of the call registry is logged at critical
    severity; the call returns, the registry and every future are as they
    were, and only the unpacker and the log have moved. *)
Theorem msg_received_unmatched header banswer self
    pid rnd req_id ts is_error answer b :
  unpack_HHLdq header = Ok (pid, rnd, req_id, ts, is_error) →
  feed_unpack banswer (base self) = (Ok answer, b) →
  calls self !! req_id = None →
  msg_received [header; banswer] self
  = (Ok tt,
     set_base (set_logger
                 (logger (base self)
                  ++ [Critical "Unknown answer id: %d (%d %d %f %d) -> %s"])
                 (set_unpacker (unpacker b) (base self))) self) ∧
  calls (msg_received [header; banswer] self).2 = calls self ∧
  loop (base (msg_received [header; banswer] self).2) = loop (base self).
Proof.
  intros Hheader Hfeed Hnone.
  assert (msg_received [header; banswer] self
  = (Ok tt,
     set_base (set_logger
                 (logger (base self)
                  ++ [Critical "Unknown answer id: %d (%d %d %f %d) -> %s"])
                 (set_unpacker (unpacker b) (base self))) self)) as ->;
    [|done].
  unfold msg_received. run.
  rewrite (msg_received_unpack_ok _ _ _ _ _ _ _ _ _ _ Hheader Hfeed). cbn.
  rewrite Hnone. cbn. rewrite delete_id by done.
  apply feed_unpack_frame in Hfeed. rewrite Hfeed.
  by destruct self as [[]].
Qed.

(** An error response for a pending call: the entry is popped and its
    future takes the translated exception. *)
Lemma msg_received_error header banswer self pid rnd req_id ts answer b
    fut exc_type exc_args exc :
  unpack_HHLdq header = Ok (pid, rnd, req_id, ts, true) →
  feed_unpack banswer (base self) = (Ok answer, b) →
  py_iter answer = Some [exc_type; exc_args] →
  calls self !! req_id = Some fut →
  loop (base self) !! fut = Some Pending →
  _translate_error self exc_type exc_args = Ok exc →
  msg_received [header; banswer] self
  = (Ok tt,
     set_calls (delete req_id (calls self))
       (set_base (set_loop (<[fut := Failed exc]> (loop (base self))) b)
          self)).
Proof.
  intros Hheader Hfeed Hanswer Hcall Hpending Htranslate.
  unfold msg_received. run.
  rewrite (msg_received_unpack_ok _ _ _ _ _ _ _ _ _ _ Hheader Hfeed). cbn.
  rewrite Hcall. cbn. rewrite Hanswer.
  change (_translate_error _ exc_type exc_args)
    with (_translate_error self exc_type exc_args).
  rewrite Htranslate. cbn. unfold set_exception.
  pose proof (feed_unpack_frame _ _ _ _ Hfeed) as Hb.
  assert (loop b = loop (base self)) as Hloop by by rewrite Hb.
  rewrite Hloop, Hpending. done.
Qed.

Lemma translate_error_miss self ident exc_args args :
  py_iter exc_args = Some args →
  error_table self !! ident = None →
  _translate_error self (VStr ident) exc_args
  = Ok (GenericError (VStr ident) (VTuple args)).
Proof.
  intros Hargs Hmiss.
  unfold _translate_error, dict_get, tuple, mbind, result_bind.
  change (hashable (VStr ident)) with true. cbv iota.
  by rewrite Hmiss, Hargs.
Qed.

Lemma translate_error_hit self ident exc_args args (found : constructor) :
  py_iter exc_args = Some args →
  error_table self !! ident = Some found →
  _translate_error self (VStr ident) exc_args = found args.
Proof.
  intros Hargs Hhit. unfold _translate_error, dict_get, mbind, result_bind.
  change (hashable (VStr ident)) with true. cbv iota.
  by rewrite Hhit, Hargs.
Qed.

(** C4. Unknown-kind error translation: an identifier that is not a key of
    the error table gives [GenericError(identifier, tuple(args))], and the
    future of the matching call is rejected with it; an identifier that is a
    key gives the registered constructor applied to the args. *)
Theorem translate_error_spec self ident exc_args args :
  py_iter exc_args = Some args →
  (error_table self !! ident = None →
   _translate_error self (VStr ident) exc_args
   = Ok (GenericError (VStr ident) (VTuple args)) ∧
   ∀ header banswer pid rnd req_id ts answer b fut,
     unpack_HHLdq header = Ok (pid, rnd, req_id, ts, true) →
     feed_unpack banswer (base self) = (Ok answer, b) →
     py_iter answer = Some [VStr ident; exc_args] →
     calls self !! req_id = Some fut →
     loop (base self) !! fut = Some Pending →
     ∃ self',
       msg_received [header; banswer] self = (Ok tt, self') ∧
       loop (base self') !! fut
       = Some (Failed (GenericError (VStr ident) (VTuple args))) ∧
       calls self' = delete req_id (calls self)) ∧
  (∀ found : constructor, error_table self !! ident = Some found →
   _translate_error self (VStr ident) exc_args = found args).
Proof.
  intros Hargs. split.
  - intros Hmiss.
    pose proof (translate_error_miss _ _ _ _ Hargs Hmiss) as Htr.
    split; [done|].
    intros header banswer pid rnd req_id ts answer b fut
      Hheader Hfeed Hanswer Hcall Hpending.
    eexists. split.
    + by eapply msg_received_error.
    + cbn. by rewrite lookup_insert_eq.
  - intros found Hhit. by apply translate_error_hit.
Qed.

(** ** Connection loss *)

(** The loop of [connection_lost] writes the futures of the waiters and
    nothing else, whether it runs to its end or not. *)
Lemma for_each_set_result_frame waiters : ∀ self r self',
  for_each waiters (λ waiter, set_result waiter VNone) self = (r, self') →
  self' = set_loop (loop self') self ∧
  ∀ fut, fut ∉ waiters → loop self' !! fut = loop self !! fut.
Proof.
  induction waiters as [|w waiters IH]; intros self r self'; cbn.
  { intros [= <- <-]. by destruct self. }
  unfold bind at 1, set_result at 1.
  destruct (loop self !! w) as [[| | |]|] eqn:Hw;
    try (intros [= <- <-]; by destruct self).
  intros [-> Hframe]%IH. cbn. split; [done|].
  intros fut [Hne Hnotin]%not_elem_of_cons.
  rewrite Hframe by done. cbn. by rewrite lookup_insert_ne.
Qed.

Lemma for_each_set_result_ok waiters : ∀ self,
  NoDup waiters →
  (∀ w, w ∈ waiters → loop self !! w = Some Pending) →
  ∃ self',
    for_each waiters (λ waiter, set_result waiter VNone) self = (Ok tt, self') ∧
    ∀ w, w ∈ waiters → loop self' !! w = Some (Finished VNone).
Proof.
  induction waiters as [|w waiters IH]; intros self Hnd Hpending; cbn.
  { eexists. split; [done|]. intros w Hin. inversion Hin. }
  apply NoDup_cons in Hnd as [Hnotin Hnd].
  unfold bind at 1, set_result at 1.
  rewrite (Hpending w) by by left.
  set (self1 := set_loop _ self).
  destruct (IH self1 Hnd) as (self' & Hrun & Hdone).
  { intros w' Hin. cbn. rewrite lookup_insert_ne by by intros ->.
    apply Hpending. by right. }
  exists self'. split; [done|].
  intros w' [->|Hin]%elem_of_cons; [|by apply Hdone].
  destruct (for_each_set_result_frame _ _ _ _ Hrun) as [_ Hframe].
  rewrite Hframe by done. cbn. by rewrite lookup_insert_eq.
Qed.

(** C10, as the code has it: in a client state whose waiters are pending
    futures, each registered once and none of them the future of a call,
    [connection_lost] neither rejects nor drains pending calls: it sets the
    transport to [None] and gives every registered waiter the result [None];
    the call registry keeps every entry and the future of every entry is as
    it was. *)
Theorem connection_lost_keeps_calls exc self :
  NoDup (done_waiters (base self)) →
  (∀ w, w ∈ done_waiters (base self) → loop (base self) !! w = Some Pending) →
  (∀ req_id fut, calls self !! req_id = Some fut →
     fut ∉ done_waiters (base self)) →
  ∃ self',
    on_base (connection_lost exc) self = (Ok tt, self') ∧
    transport (base self') = None ∧
    (∀ w, w ∈ done_waiters (base self) →
       loop (base self') !! w = Some (Finished VNone)) ∧
    calls self' = calls self ∧
    (∀ req_id fut, calls self !! req_id = Some fut →
       loop (base self') !! fut = loop (base self) !! fut).
Proof.
  intros Hnd Hpending Hdisjoint.
  destruct (for_each_set_result_ok (done_waiters (base self))
              (set_transport None (base self)) Hnd Hpending)
    as (b' & Hrun & Hdone).
  destruct (for_each_set_result_frame _ _ _ _ Hrun) as [Hb' Hframe].
  exists (set_base b' self). split; [|split; [|split; [|split]]].
  - unfold on_base, connection_lost. run. by rewrite Hrun.
  - cbn. by rewrite Hb'.
  - done.
  - done.
  - intros req_id fut Hcall. cbn. rewrite Hframe; [done|]. by eapply Hdisjoint.
Qed.

(** Without any assumption on the waiters, [connection_lost] still leaves
    the registry and the futures of the calls alone. *)
Lemma connection_lost_frame exc self r self' :
  on_base (connection_lost exc) self = (r, self') →
  calls self' = calls self ∧
  ∀ fut, fut ∉ done_waiters (base self) →
    loop (base self') !! fut = loop (base self) !! fut.
Proof.
  unfold on_base, connection_lost. run.
  destruct (for_each _ _ _) as [r' b'] eqn:Hrun.
  apply for_each_set_result_frame in Hrun as [_ Hframe].
  intros [= <- <-]. cbn. split; [done|]. apply Hframe.
Qed.

(** ** Error round trip *)

Lemma pack_Ldq_ok n now flag :
  0 ≤ n ≤ 0xffffffff → ∃ suffix, pack_Ldq n now flag = Ok suffix.
Proof.
  intros Hn. unfold pack_Ldq, pack_uint. rewrite decide_True.
  - eexists. reflexivity.
  - change (2 ^ (8 * 4)) with 4294967296. lia.
Qed.

(** The identifier that [process_call_result] sends for an exception *)
Lemma process_call_result_error now now' exc req_id peer self
    written suffix payload :
  transport (sbase self) = Some written →
  pack_Ldq req_id now' true = Ok suffix →
  packer_pack
    (VTuple [VStr (exc_module exc +:+ "." +:+ exc_name exc);
             VTuple (exc_args exc)]) = Ok payload →
  process_call_result now now' (Raise exc) req_id peer self
  = (Ok tt,
     set_sbase
       (set_transport
          (Some (written ++ [[peer; (sprefix self ++ suffix)%list; payload]])%list)
          (sbase self)) self).
Proof.
  intros Htransport Hsuffix Hpayload. unfold process_call_result. run.
  rewrite Hsuffix. cbn. unfold transport_write_method.
  rewrite Htransport. cbn. rewrite Hpayload. cbn.
  unfold transport_write. cbn. by rewrite Htransport.
Qed.


(** ** Dispatch *)

(** The tail of [dispatch]: the lookup of the leaf and the marker test *)
Lemma dispatch_leaf name leaf (handler : pyobj) :
  match getitem handler leaf with
  | Ok func =>
      if hasattr_rpc match func with PyMethod f => f | _ => func end
      then Ok func else Raise (NotFoundError [VStr name])
  | Raise exc =>
      if exc_isinstance "builtins" "KeyError" exc
      then Raise (NotFoundError [VStr name]) else Raise exc
  end
  = match lookup_error handler [leaf] with
    | Some exc => Raise exc
    | None =>
        match handler_lookup handler leaf with
        | Some func =>
            if carries_marker func then Ok func
            else Raise (NotFoundError [VStr name])
        | None => Raise (NotFoundError [VStr name])
        end
    end.
Proof.
  cbn [lookup_error].
  assert (∀ func : pyobj,
    (if isinstance_AbstractHandler func then None else None)
    = (None : option pyexc)) as Hnone by (by intros []).
  destruct handler as [items rpc|ident lookup rpc| | | |]; try done; cbn.
  - destruct (items !! leaf) as [func|]; [|done].
    rewrite Hnone. by destruct func.
  - destruct (lookup leaf) as [func|exc].
    + rewrite Hnone. by destruct func.
    + by destruct (exc_isinstance "builtins" "KeyError" exc).
Qed.

(** A lookup in the words of the specification is what [getitem] finds. *)
Lemma handler_lookup_getitem (handler : pyobj) key :
  handler_lookup handler key
  = match getitem handler key with Ok val => Some val | Raise _ => None end.
Proof.
  destruct handler as [items rpc|ident lookup rpc| | | |]; try done.
  cbn. by destruct (items !! key).
Qed.

(** The loop of [dispatch] followed by a lookup of [leaf] on the handler it
    ends on: either a lookup raises an exception that is not a [KeyError],
    which leaves the loop, or the loop agrees with the resolution of the
    path. *)
Lemma dispatch_namespaces_walk {A} name leaf (k : pyobj → result A)
    (k' : option pyobj → result A) parts : ∀ handler,
  (∀ handler',
     k handler' = match lookup_error handler' [leaf] with
                  | Some exc => Raise exc
                  | None => k' (Some handler')
                  end) →
  k' None = Raise (NotFoundError [VStr name]) →
  (dispatch_namespaces name parts handler ≫= k)
  = match lookup_error handler (parts ++ [leaf])%list with
    | Some exc => Raise exc
    | None => k' (resolve_path handler parts)
    end.
Proof.
  intros handler Hk Hnone. revert handler.
  induction parts as [|part parts IH]; intros handler; [apply Hk|].
  cbn [dispatch_namespaces lookup_error resolve_path app].
  rewrite handler_lookup_getitem.
  destruct (getitem handler part) as [child|exc].
  - destruct (isinstance_AbstractHandler child); [apply IH|done].
  - by destruct (exc_isinstance "builtins" "KeyError" exc).
Qed.

(** [dispatch] in terms of the walk along the keys of the name *)
Lemma dispatch_walk (self : server_protocol) name :
  dispatch self name
  = if decide (name = "") then Raise (NotFoundError [VStr name])
    else match lookup_error (handler self) (lookup_keys name) with
         | Some exc => Raise exc
         | None =>
             match resolve (handler self) name with
             | Some func =>
                 if carries_marker func then Ok func
                 else Raise (NotFoundError [VStr name])
             | None => Raise (NotFoundError [VStr name])
             end
         end.
Proof.
  unfold dispatch, resolve, lookup_keys, namespace_path, leaf_name.
  destruct (decide (name = "")) as [|Hname]; [done|].
  destruct (rpartition "." name) as [[namespaces sep] leaf]. cbn.
  destruct (decide (namespaces = "")); cbn; [apply dispatch_leaf|].
  apply (dispatch_namespaces_walk name leaf _
    (λ last, match match last with
                   | Some last => handler_lookup last leaf
                   | None => None
                   end with
             | Some func =>
                 if carries_marker func then Ok func
                 else Raise (NotFoundError [VStr name])
             | None => Raise (NotFoundError [VStr name])
             end)); [|done].
  intros handler'. apply dispatch_leaf.
Qed.

(** A name that resolves meets no exception on its way. *)
Lemma resolve_path_no_error keys : ∀ handler last leaf func,
  resolve_path handler keys = Some last →
  handler_lookup last leaf = Some func →
  lookup_error handler (keys ++ [leaf])%list = None.
Proof.
  induction keys as [|key keys IH]; intros handler last leaf func;
    cbn [resolve_path lookup_error app]; rewrite !handler_lookup_getitem.
  - intros [= <-]. destruct (getitem handler leaf) as [val|]; [|done].
    intros _. by destruct (isinstance_AbstractHandler val).
  - destruct (getitem handler key) as [child|]; [|done].
    destruct (isinstance_AbstractHandler child); [|done].
    intros Hpath Hleaf. eapply IH; [done|]. by rewrite handler_lookup_getitem.
Qed.

Lemma resolve_no_error root name func :
  resolve root name = Some func →
  lookup_error root (lookup_keys name) = None.
Proof.
  unfold resolve, lookup_keys. destruct (decide (name = "")); [done|].
  destruct (resolve_path _ _) as [last|] eqn:Hpath; [|done].
  intros Hleaf. by eapply resolve_path_no_error.
Qed.

(** [dispatch] returns exactly the marked leaves that the name resolves
    to. *)
Lemma dispatch_resolve (self : server_protocol) name func :
  dispatch self name = Ok func ↔
  resolve (handler self) name = Some func ∧ carries_marker func = true.
Proof.
  rewrite dispatch_walk.
  destruct (resolve (handler self) name) as [func'|] eqn:Hresolve.
  - rewrite (resolve_no_error _ _ _ Hresolve).
    assert (name ≠ "") as Hname.
    { intros ->. by unfold resolve in Hresolve. }
    rewrite decide_False by done.
    destruct (carries_marker func') eqn:Hmarker.
    + split; [intros ?|intros [? _]]; by simplify_eq.
    + split; [done|]. intros [? ?]. simplify_eq. congruence.
  - destruct (decide _); [|destruct (lookup_error _ _)];
      (split; [done|by intros [? _]]).
Qed.

(** A name that resolves to a leaf: the marker decides. *)
Lemma dispatch_resolved (self : server_protocol) name func :
  resolve (handler self) name = Some func →
  dispatch self name
  = if carries_marker func then Ok func
    else Raise (NotFoundError [VStr name]).
Proof.
  intros Hresolve. rewrite dispatch_walk.
  rewrite (resolve_no_error _ _ _ Hresolve), Hresolve.
  unfold resolve in Hresolve. by destruct (decide (name = "")).
Qed.

(** C3. Endpoint gating: when the name resolves to a leaf value,
    [dispatch] returns that value exactly when the value, or for a bound
    method its function, has the [__rpc__] attribute; without it [dispatch]
    raises [NotFoundError(name)]. The attribute is what [method] sets. *)
Theorem dispatch_endpoint_gating (self : server_protocol) name func :
  resolve (handler self) name = Some func →
  (dispatch self name = Ok func ↔ carries_marker func = true) ∧
  (carries_marker func = false →
   dispatch self name = Raise (NotFoundError [VStr name])) ∧
  (∀ f f', method f = Ok f' → carries_marker f' = true).
Proof.
  intros Hresolve. rewrite (dispatch_resolved _ _ _ Hresolve).
  split; [|split].
  - destruct (carries_marker func); split; done.
  - by intros ->.
  - intros [] f'; cbn; intros [= <-]; done.
Qed.


(** ** Requests that do not decode *)

(** A 23-byte response header and a 20-byte request header are not what
    [=HHLd?] (17 bytes) and [=HHLd] (16 bytes) take. *)
Lemma unpack_header_sizes (header : bytes) :
  (length header = 23%nat → unpack_HHLdq header = Raise struct_error) ∧
  (length header = 20%nat → unpack_HHLd header = Raise struct_error).
Proof.
  unfold unpack_HHLdq, unpack_HHLd.
  split; intros Hlen; rewrite decide_False; done || lia.
Qed.

(** C9 fails on the code: the server's [msg_received] has no [try] around
    its decoding steps, unlike the client's. A message that is not made of
    five frames, a header that is not 16 bytes long and argument blobs that
    do not unpack each make it raise out of the callback; nothing is logged
    and nothing is written. *)
Theorem server_msg_received_raises (self : server_protocol) :
  (∀ data, length data ≠ 5%nat →
     server_msg_received data self = (Raise ValueError, self)) ∧
  (∀ peer header bname bargs bkwargs, length header ≠ 16%nat →
     server_msg_received [peer; header; bname; bargs; bkwargs] self
     = (Raise struct_error, self)) ∧
  (∀ peer header bname bargs bkwargs pid rnd req_id ts name func exc b,
     unpack_HHLd header = Ok (pid, rnd, req_id, ts) →
     utf8_decode bname = Ok name →
     dispatch self name = Ok func →
     feed_unpack bargs (sbase self) = (Raise exc, b) →
     ∃ self',
       server_msg_received [peer; header; bname; bargs; bkwargs] self
       = (Raise exc, self') ∧
       logger (sbase self') = logger (sbase self) ∧
       transport (sbase self') = transport (sbase self)).
Proof.
  split; [|split].
  - intros data Hlen. by destruct data as [|? [|? [|? [|? [|? [|]]]]]].
  - intros peer header bname bargs bkwargs Hlen.
    unfold server_msg_received, unpack_HHLd. run. by rewrite decide_False.
  - intros peer header bname bargs bkwargs pid rnd req_id ts name func exc b
      Hheader Hname Hdispatch Hfeed.
    unfold server_msg_received. run. rewrite Hheader. cbn. rewrite Hname. cbn.
    rewrite Hdispatch. cbn. rewrite Hfeed.
    apply feed_unpack_frame in Hfeed as ->. by eexists.
Qed.

(** ** Reachable client states *)

Lemma msg_received_unpack_frame data self r self' :
  msg_received_unpack data self = (r, self') →
  ∃ u, self' = set_base (set_unpacker u (base self)) self.
Proof.
  assert (self = set_base (set_unpacker (unpacker (base self)) (base self))
                   self) as Hself by by destruct self as [[]].
  unfold msg_received_unpack.
  destruct data as [|header [|banswer [|]]]; run;
    try (intros [= <- <-]; by eexists).
  destruct (unpack_HHLdq header) as [[[[[pid rnd] req_id] ts] is_error]|e];
    cbn; [|intros [= <- <-]; by eexists].
  destruct (feed_unpack banswer (base self)) as [[answer|e'] b] eqn:Hfeed;
    cbn; intros [= <- <-];
    apply feed_unpack_frame in Hfeed as ->; by eexists.
Qed.

(** The [try] of [msg_received] fails in the ways of [decode_failure] only. *)
Lemma msg_received_unpack_raises data self exc self' :
  msg_received_unpack data self = (Raise exc, self') →
  decode_failure data self.
Proof.
  unfold msg_received_unpack, decode_failure.
  destruct data as [|header [|banswer [|]]]; run;
    try (intros _; left; simpl; lia).
  intros Hrun. right. exists header, banswer. split; [done|].
  unfold unpack_HHLdq in Hrun.
  destruct (decide (length header = 17%nat)); [|by left].
  right. cbn in Hrun.
  destruct (feed_unpack banswer (base self)) as [[answer|exc'] b] eqn:Hfeed;
    [done|]. by eexists _, _.
Qed.

(** What [msg_received] can change: the entry of one call and the state of
    its future, the unpacker and the log. *)
Lemma msg_received_effect data self r self' :
  msg_received data self = (r, self') →
  counter self' = counter self ∧
  done_waiters (base self') = done_waiters (base self) ∧
  calls self' ⊆ calls self ∧
  (loop (base self') = loop (base self) ∨
   ∃ req_id fut st,
     calls self !! req_id = Some fut ∧
     loop (base self) !! fut = Some Pending ∧
     loop (base self') = <[fut := st]> (loop (base self))).
Proof.
  unfold msg_received. run.
  destruct (msg_received_unpack data self) as [[unpacked|e] self1] eqn:Hunpack;
    apply msg_received_unpack_frame in Hunpack as [u ->]; cbn.
  2:{ intros [= <- <-]. cbn. do 3 (split; [done|]). by left. }
  destruct unpacked as [[[[[pid rnd] req_id] ts] is_error] answer]. cbn.
  pose proof (delete_subseteq (calls self) req_id) as Hsub.
  destruct (calls self !! req_id) as [fut|] eqn:Hcall; cbn.
  2:{ intros [= <- <-]. cbn. do 3 (split; [done|]). by left. }
  assert (∀ r0, (r0, set_calls (delete req_id (calls self))
                       (set_base (set_unpacker u (base self)) self))
                = (r, self') →
    counter self' = counter self ∧
    done_waiters (base self') = done_waiters (base self) ∧
    calls self' ⊆ calls self ∧
    (loop (base self') = loop (base self) ∨
     ∃ req_id fut st,
       calls self !! req_id = Some fut ∧
       loop (base self) !! fut = Some Pending ∧
       loop (base self') = <[fut := st]> (loop (base self)))) as Hsame.
  { intros r0 [= <- <-]. cbn. do 3 (split; [done|]). by left. }
  destruct is_error.
  - destruct (py_iter answer) as [[|exc_type [|exc_args [|]]]|];
      try (cbn; by apply Hsame).
    cbn. destruct (_translate_error _ exc_type exc_args) as [exc|e];
      cbn; [|by apply Hsame].
    unfold set_exception. cbn.
    destruct (loop (base self) !! fut) as [[| | |]|] eqn:Hfut;
      cbn; try by apply Hsame.
    intros [= <- <-]. cbn. do 3 (split; [done|]). right. by eexists _, _, _.
  - unfold set_result. cbn.
    destruct (loop (base self) !! fut) as [[| | |]|] eqn:Hfut;
      cbn; try by apply Hsame.
    intros [= <- <-]. cbn. do 3 (split; [done|]). right. by eexists _, _, _.
Qed.

Lemma client_init_inv futures pid rnd self :
  client_init futures pid rnd = Ok self → client_inv self.
Proof.
  unfold client_init. destruct (pack_HH _ _) as [b|]; [|done].
  intros [= <-]. split; [done|]. split; [constructor|].
  split; [by intros w Hw; inversion Hw|]. by intros req_id fut.
Qed.

Lemma msg_received_inv data self r self' :
  client_inv self → msg_received data self = (r, self') → client_inv self'.
Proof.
  intros (Hc & Hnd & Hpending & Hcalls)
    (Hcounter & Hwaiters & Hsub & Hloop)%msg_received_effect.
  unfold client_inv. rewrite Hcounter, Hwaiters.
  split; [done|]. split; [done|].
  destruct Hloop as [->|(req_id & fut & st & Hcall & Hfut & ->)].
  - split; [done|]. intros req_id fut Hin.
    apply Hcalls with req_id. by eapply lookup_weaken.
  - split.
    + intros w Hw. rewrite lookup_insert_ne; [by apply Hpending|].
      intros <-. by destruct (Hcalls _ _ Hcall).
    + intros req_id' fut' Hin.
      destruct (Hcalls req_id' fut') as [Hdom Hnot];
        [by eapply lookup_weaken|].
      split; [|done]. rewrite dom_insert_L. by apply elem_of_union_r.
Qed.

Lemma call_inv now name args kwargs self r self' :
  client_inv self →
  call now name args kwargs self = (r, self') →
  client_inv self'.
Proof.
  intros (Hc & Hnd & Hpending & Hcalls). unfold call. run.
  assert (∀ e, (Raise e, self) = (r, self') → client_inv self') as Hraise.
  { by intros e [= <- <-]. }
  destruct (utf8_encode name) as [bname|]; [|by apply Hraise].
  destruct (packer_pack args) as [bargs|]; [|by apply Hraise].
  destruct (packer_pack kwargs) as [bkwargs|]; [|by apply Hraise].
  clear Hraise.
  destruct (new_id_spec now self Hc) as (suffix & _ & ->).
  pose proof (next_id_range _ Hc) as Hn.
  generalize dependent (next_id (counter self)). intros n Hn. cbn.
  destruct (calls self !! n) as [old|] eqn:Hreg; cbn.
  { intros [= <- <-]. split; [cbn; lia|done]. }
  set (fut := fresh (dom (loop (base self)))).
  assert (fut ∉ dom (loop (base self))) as Hfresh by apply is_fresh.
  assert (client_inv
            (set_calls (<[n:=fut]> (calls self))
               (set_base (set_loop (<[fut:=Pending]> (loop (base self)))
                            (base self)) (set_counter n self)))) as Hinv.
  { split; [cbn; lia|]. split; [done|]. cbn. split.
    - intros w Hw. rewrite lookup_insert_ne; [by apply Hpending|].
      intros <-. apply Hfresh, elem_of_dom. rewrite (Hpending _ Hw). by eexists.
    - intros req_id fut' [[-> ->]|[Hne Hin]]%lookup_insert_Some.
      + split; [rewrite dom_insert_L; by apply elem_of_union_l,
                  elem_of_singleton|].
        intros Hw. apply Hfresh, elem_of_dom. rewrite (Hpending _ Hw).
        by eexists.
      + destruct (Hcalls _ _ Hin) as [Hdom Hnot]. split; [|done].
        rewrite dom_insert_L. by apply elem_of_union_r. }
  unfold transport_write. cbn.
  destruct (transport (base self)); cbn; intros [= <- <-]; [|done].
  destruct Hinv as (? & ? & ? & ?). by split.
Qed.

Lemma wait_closed_inv self r self' :
  client_inv self → on_base wait_closed self = (r, self') → client_inv self'.
Proof.
  intros (Hc & Hnd & Hpending & Hcalls). unfold on_base, wait_closed. run.
  destruct (transport (base self)); cbn; intros [= <- <-]; [|done].
  set (waiter := fresh (dom (loop (base self)))).
  assert (waiter ∉ dom (loop (base self))) as Hfresh by apply is_fresh.
  assert (waiter ∉ done_waiters (base self)) as Hnew.
  { intros Hw. apply Hfresh, elem_of_dom. rewrite (Hpending _ Hw).
    by eexists. }
  split; [done|]. cbn. split; [|split].
  - apply NoDup_app. split; [done|]. split; [|apply NoDup_singleton].
    intros w Hw ->%list_elem_of_singleton. done.
  - intros w [Hw| ->%list_elem_of_singleton]%elem_of_app.
    + rewrite lookup_insert_ne; [by apply Hpending|]. by intros <-.
    + apply lookup_insert_eq.
  - intros req_id fut Hin. destruct (Hcalls _ _ Hin) as [Hdom Hnot].
    split; [rewrite dom_insert_L; by apply elem_of_union_r|].
    intros [Hw| ->%list_elem_of_singleton]%elem_of_app; done.
Qed.

(** A client that satisfies the invariant meets what C10 asks of the
    waiters. *)
Lemma client_inv_waiters self :
  client_inv self →
  NoDup (done_waiters (base self)) ∧
  (∀ w, w ∈ done_waiters (base self) → loop (base self) !! w = Some Pending) ∧
  (∀ req_id fut, calls self !! req_id = Some fut →
     fut ∉ done_waiters (base self)).
Proof.
  intros (_ & Hnd & Hpending & Hcalls). do 2 (split; [done|]).
  intros req_id fut Hin. by destruct (Hcalls _ _ Hin).
Qed.

(** * Further properties *)

(** ** Dotted names *)

Lemma split_nonempty sep s : split sep s ≠ [].
Proof.
  destruct s as [|c rest]; cbn; [done|].
  destruct (Ascii.eqb c sep); [done|]. by destruct (split sep rest).
Qed.

Lemma split_no_sep sep s : contains sep s = false → split sep s = [s].
Proof.
  induction s as [|c rest IH]; cbn; [done|].
  intros [Hc Hrest]%orb_false_elim. by rewrite Hc, IH.
Qed.

Lemma append_nil_l s : "" +:+ s = s.
Proof. reflexivity. Qed.

Lemma append_cons c a b : String c a +:+ b = String c (a +:+ b).
Proof. reflexivity. Qed.

Lemma split_app sep a b :
  contains sep a = false →
  split sep (a +:+ String sep b) = a :: split sep b.
Proof.
  induction a as [|c a IH]; rewrite ?append_nil_l, ?append_cons; cbn.
  - intros _. by rewrite Ascii.eqb_refl.
  - intros [Hc Ha]%orb_false_elim. by rewrite Hc, IH.
Qed.

Lemma rpartition_no_sep sep s :
  contains sep s = false → rpartition sep s = ("", "", s).
Proof.
  induction s as [|c rest IH]; cbn; [done|].
  intros [Hc Hrest]%orb_false_elim. by rewrite IH, Hc.
Qed.

Lemma rpartition_app sep a b :
  contains sep b = false →
  rpartition sep (a +:+ String sep b) = (a, String sep "", b).
Proof.
  intros Hb. induction a as [|c a IH]; rewrite ?append_nil_l, ?append_cons; cbn.
  - by rewrite (rpartition_no_sep _ _ Hb), Ascii.eqb_refl.
  - by rewrite IH.
Qed.

Lemma append_nonempty a b : a ≠ "" → a +:+ b ≠ "".
Proof. by destruct a. Qed.

Lemma join_snoc sep parts last :
  parts ≠ [] → join sep (parts ++ [last]) = join sep parts +:+ sep +:+ last.
Proof.
  induction parts as [|part [|part' parts] IH]; [done|done|].
  intros _. change (join sep ((part :: part' :: parts) ++ [last]))
    with (part +:+ sep +:+ join sep ((part' :: parts) ++ [last])).
  rewrite IH by done.
  change (join sep (part :: part' :: parts))
    with (part +:+ sep +:+ join sep (part' :: parts)).
  generalize (join sep (part' :: parts)). intros rest.
  assert (∀ x y z, (x +:+ y) +:+ z = x +:+ y +:+ z) as Hassoc.
  { intros x y z. induction x as [|c x IHx]; [done|].
    by rewrite !append_cons, IHx. }
  by rewrite !Hassoc.
Qed.

Lemma split_join parts :
  parts ≠ [] →
  Forall (λ s, contains "." s = false) parts →
  split "." (join "." parts) = parts.
Proof.
  induction parts as [|part [|part' parts] IH]; [done| |].
  - intros _ [Hpart _]%Forall_cons. by apply split_no_sep.
  - intros _ [Hpart Hparts]%Forall_cons.
    change (join "." (part :: part' :: parts))
      with (part +:+ String "." (join "." (part' :: parts))).
    rewrite split_app by done. by rewrite IH.
Qed.

Lemma join_nonempty parts :
  parts ≠ [] → Forall (λ s, s ≠ "") parts → join "." parts ≠ "".
Proof.
  destruct parts as [|part [|part' parts]]; [done| |].
  - by intros _ [Hpart _]%Forall_cons.
  - intros _ [Hpart _]%Forall_cons. by apply append_nonempty.
Qed.

(** The name that [rpc.a.b.leaf] sends splits back into its segments. *)
Lemma name_of_segments path leaf :
  Forall segment (path ++ [leaf]) →
  join "." (path ++ [leaf]) ≠ "" ∧
  namespace_path (join "." (path ++ [leaf])) = path ∧
  leaf_name (join "." (path ++ [leaf])) = leaf.
Proof.
  intros [Hpath [[Hleaf Hdot] _]%Forall_cons]%Forall_app.
  assert (Forall (λ s, contains "." s = false) path) as Hdots.
  { eapply Forall_impl; [exact Hpath|]. by intros s [_ ?]. }
  assert (Forall (λ s, s ≠ "") path) as Hfull.
  { eapply Forall_impl; [exact Hpath|]. by intros s [? _]. }
  unfold namespace_path, leaf_name.
  destruct (decide (path = [])) as [->|Hne].
  - cbn. by rewrite (rpartition_no_sep _ _ Hdot).
  - rewrite join_snoc by done.
    change (join "." path +:+ "." +:+ leaf)
      with (join "." path +:+ String "." leaf).
    rewrite (rpartition_app _ _ _ Hdot). cbn.
    pose proof (join_nonempty _ Hne Hfull) as Hjoin.
    split; [by apply append_nonempty|].
    rewrite decide_False by done. by rewrite split_join.
Qed.

(** X1. A name built from attribute segments reaches exactly the object that
    the segments lead to: [dispatch] of [".".join(path + [leaf])] returns
    [func] if and only if walking [path] from the root through handlers ends
    on a handler where [leaf] is [func], and [func] is an endpoint. *)
Theorem dispatch_join (self : server_protocol) path leaf :
  isinstance_AbstractHandler (handler self) = true →
  Forall segment (path ++ [leaf]) →
  ∀ func,
    dispatch self (join "." (path ++ [leaf])) = Ok func ↔
    ∃ last, resolve_path (handler self) path = Some last ∧
            handler_lookup last leaf = Some func ∧
            carries_marker func = true.
Proof.
  intros Hroot (Hname & Hpath & Hleaf)%name_of_segments func.
  rewrite dispatch_resolve. unfold resolve.
  rewrite decide_False by done. rewrite Hpath, Hleaf.
  destruct (resolve_path (handler self) path) as [last|].
  - split.
    + intros [Hlookup Hmarker]. by exists last.
    + by intros (? & [= <-] & ? & ?).
  - split; [by intros [? _]|]. by intros (? & ? & _).
Qed.

(** X2. A name with nothing before its only dot resolves like the bare
    leaf: [dispatch] skips the namespace walk when the part before the last
    dot is empty. *)
Theorem dispatch_leading_dot (self : server_protocol) leaf :
  leaf ≠ "" →
  contains "." leaf = false →
  ∀ func, dispatch self ("." +:+ leaf) = Ok func ↔
          dispatch self leaf = Ok func.
Proof.
  intros Hleaf Hdot func. unfold dispatch.
  rewrite decide_False by done. rewrite decide_False by done.
  change ("." +:+ leaf) with ("" +:+ String "." leaf).
  rewrite (rpartition_app _ _ _ Hdot), (rpartition_no_sep _ _ Hdot). cbn.
  destruct (decide ("" = "")) as [_|]; [cbn|done].
  destruct (getitem (handler self) leaf) as [func'|exc].
  - by destruct (hasattr_rpc match func' with PyMethod f => f | _ => func' end).
  - by destruct (exc_isinstance "builtins" "KeyError" exc).
Qed.

(** X3. [dispatch] never hands out an object without the endpoint marker.
    An exception that leaves it is [NotFoundError] with the full name, or
    the exception other than [KeyError] that a lookup of the walk raised. A
    root without [__getitem__] gives [TypeError] for every name that is not
    empty. *)
Theorem dispatch_outcomes (self : server_protocol) name :
  (∀ func, dispatch self name = Ok func →
     carries_marker func = true ∧
     isinstance_AbstractHandler (handler self) = true) ∧
  (∀ exc, dispatch self name = Raise exc →
     exc = NotFoundError [VStr name] ∨
     lookup_error (handler self) (lookup_keys name) = Some exc) ∧
  (isinstance_AbstractHandler (handler self) = false → name ≠ "" →
   dispatch self name = Raise TypeError).
Proof.
  split; [|split].
  - intros func [Hresolve Hmarker]%dispatch_resolve. split; [done|].
    unfold resolve in Hresolve. destruct (decide (name = "")); [done|].
    destruct (namespace_path name) as [|part path]; cbn in Hresolve;
      by destruct (handler self).
  - intros exc. rewrite dispatch_walk.
    destruct (decide (name = "")); [intros [= <-]; by left|].
    destruct (lookup_error _ _) as [exc'|]; [intros [= <-]; by right|].
    destruct (resolve _ _) as [func|]; [|intros [= <-]; by left].
    destruct (carries_marker func); [done|]. intros [= <-]. by left.
  - intros Hroot Hname. rewrite dispatch_walk, decide_False by done.
    unfold lookup_keys.
    destruct (namespace_path name) as [|part path];
      by destruct (handler self).
Qed.

(** ** Calls *)

Lemma call_ok now name args kwargs self bname bargs bkwargs written :
  0 ≤ counter self →
  utf8_encode name = Ok bname →
  packer_pack args = Ok bargs →
  packer_pack kwargs = Ok bkwargs →
  transport (base self) = Some written →
  calls self !! next_id (counter self) = None →
  ∃ suffix,
    pack_Ld (next_id (counter self)) now = Ok suffix ∧
    call now name args kwargs self
    = (Ok (fresh (dom (loop (base self)))),
       set_calls
         (<[next_id (counter self) := fresh (dom (loop (base self)))]>
            (calls self))
         (set_base
            (set_transport
               (Some (written ++ [[(prefix self ++ suffix)%list; bname; bargs;
                                   bkwargs]])%list)
               (set_loop (<[fresh (dom (loop (base self))) := Pending]>
                            (loop (base self))) (base self)))
            (set_counter (next_id (counter self)) self))).
Proof.
  intros Hc Hname Hargs Hkwargs Htransport Hfree.
  destruct (new_id_spec now self Hc) as (suffix & Hsuffix & Hid).
  exists suffix. split; [done|].
  unfold call. run. rewrite Hname, Hargs, Hkwargs, Hid. cbn.
  rewrite Hfree. cbn. unfold transport_write. cbn. by rewrite Htransport.
Qed.

(** X4. A [call] on a connected client whose arguments encode and whose
    next id is free returns a new pending future, registers it under the
    next id, keeps every other entry, and writes one message: the header
    with that id, the name, the packed args and the packed kwargs. *)
Theorem call_connected now name args kwargs self bname bargs bkwargs written :
  0 ≤ counter self →
  utf8_encode name = Ok bname →
  packer_pack args = Ok bargs →
  packer_pack kwargs = Ok bkwargs →
  transport (base self) = Some written →
  calls self !! next_id (counter self) = None →
  ∃ fut suffix self',
    call now name args kwargs self = (Ok fut, self') ∧
    pack_Ld (next_id (counter self)) now = Ok suffix ∧
    (fut ∉ dom (loop (base self))) ∧
    loop (base self') = <[fut := Pending]> (loop (base self)) ∧
    calls self' = <[next_id (counter self) := fut]> (calls self) ∧
    counter self' = next_id (counter self) ∧
    transport (base self')
    = Some (written ++ [[(prefix self ++ suffix)%list; bname; bargs;
                         bkwargs]])%list ∧
    unpacker (base self') = unpacker (base self) ∧
    error_table self' = error_table self.
Proof.
  intros Hc Hname Hargs Hkwargs Htransport Hfree.
  destruct (call_ok now _ _ _ _ _ _ _ _ Hc Hname Hargs Hkwargs Htransport
              Hfree) as (suffix & Hsuffix & Hcall).
  eexists _, suffix, _. split; [exact Hcall|].
  split; [done|]. split; [apply is_fresh|]. done.
Qed.

(** X5. A [call] on a client without transport raises [AttributeError]
    only after it has registered the future: the entry stays in the
    registry, its future pending, and the counter has moved. *)
Theorem call_disconnected now name args kwargs self bname bargs bkwargs :
  0 ≤ counter self →
  utf8_encode name = Ok bname →
  packer_pack args = Ok bargs →
  packer_pack kwargs = Ok bkwargs →
  transport (base self) = None →
  calls self !! next_id (counter self) = None →
  ∃ fut self',
    call now name args kwargs self = (Raise AttributeError, self') ∧
    calls self' = <[next_id (counter self) := fut]> (calls self) ∧
    loop (base self') !! fut = Some Pending ∧
    counter self' = next_id (counter self) ∧
    transport (base self') = None.
Proof.
  intros Hc Hname Hargs Hkwargs Htransport Hfree.
  destruct (new_id_spec now self Hc) as (suffix & Hsuffix & Hid).
  exists (fresh (dom (loop (base self)))). eexists. split.
  - unfold call. run. rewrite Hname, Hargs, Hkwargs, Hid. cbn.
    rewrite Hfree. cbn. unfold transport_write. cbn. rewrite Htransport.
    reflexivity.
  - cbn. split; [done|]. split; [apply lookup_insert_eq|]. done.
Qed.

(** X6. When the name, the args or the kwargs do not encode, [call] raises
    before it touches the client: no id is taken, nothing is registered,
    nothing is written. *)
Theorem call_encode_failure now name args kwargs self exc :
  (utf8_encode name = Raise exc →
   call now name args kwargs self = (Raise exc, self)) ∧
  (∀ bname, utf8_encode name = Ok bname → packer_pack args = Raise exc →
   call now name args kwargs self = (Raise exc, self)) ∧
  (∀ bname bargs, utf8_encode name = Ok bname → packer_pack args = Ok bargs →
   packer_pack kwargs = Raise exc →
   call now name args kwargs self = (Raise exc, self)).
Proof.
  split; [|split].
  - intros Hname. unfold call. run. by rewrite Hname.
  - intros bname Hname Hargs. unfold call. run. by rewrite Hname, Hargs.
  - intros bname bargs Hname Hargs Hkwargs. unfold call. run.
    by rewrite Hname, Hargs, Hkwargs.
Qed.

(** ** Responses *)

Lemma msg_received_result header banswer self pid rnd req_id ts answer b fut :
  unpack_HHLdq header = Ok (pid, rnd, req_id, ts, false) →
  feed_unpack banswer (base self) = (Ok answer, b) →
  calls self !! req_id = Some fut →
  loop (base self) !! fut = Some Pending →
  msg_received [header; banswer] self
  = (Ok tt,
     set_calls (delete req_id (calls self))
       (set_base (set_loop (<[fut := Finished answer]> (loop (base self))) b)
          self)).
Proof.
  intros Hheader Hfeed Hcall Hpending.
  unfold msg_received. run.
  rewrite (msg_received_unpack_ok _ _ _ _ _ _ _ _ _ _ Hheader Hfeed). cbn.
  rewrite Hcall. cbn. unfold set_result.
  pose proof (feed_unpack_frame _ _ _ _ Hfeed) as Hb.
  assert (loop b = loop (base self)) as Hloop by by rewrite Hb.
  rewrite Hloop, Hpending. done.
Qed.

(** X8. Response matching: a response without the error flag for a pending
    call gives the decoded value to the future of that call and removes its
    entry; the other entries, the other futures and the log are as they
    were. *)
Theorem response_resolves_future header banswer self
    pid rnd req_id ts answer b fut :
  unpack_HHLdq header = Ok (pid, rnd, req_id, ts, false) →
  feed_unpack banswer (base self) = (Ok answer, b) →
  calls self !! req_id = Some fut →
  loop (base self) !! fut = Some Pending →
  ∃ self',
    msg_received [header; banswer] self = (Ok tt, self') ∧
    loop (base self') !! fut = Some (Finished answer) ∧
    calls self' = delete req_id (calls self) ∧
    (∀ other, other ≠ fut →
       loop (base self') !! other = loop (base self) !! other) ∧
    logger (base self') = logger (base self).
Proof.
  intros Hheader Hfeed Hcall Hpending. eexists. split.
  - by eapply msg_received_result.
  - cbn. split; [apply lookup_insert_eq|]. split; [done|]. split.
    + intros other Hother. by rewrite lookup_insert_ne.
    + apply feed_unpack_frame in Hfeed. by rewrite Hfeed.
Qed.

(** X9. An error response whose payload is not a sequence of two items
    makes [msg_received] raise [TypeError] after the entry was popped: the
    call is gone from the registry and its future is pending for good. *)
Theorem error_response_malformed header banswer self
    pid rnd req_id ts answer b fut :
  unpack_HHLdq header = Ok (pid, rnd, req_id, ts, true) →
  feed_unpack banswer (base self) = (Ok answer, b) →
  calls self !! req_id = Some fut →
  (∀ exc_type exc_args, py_iter answer ≠ Some [exc_type; exc_args]) →
  ∃ self',
    msg_received [header; banswer] self = (Raise TypeError, self') ∧
    calls self' = delete req_id (calls self) ∧
    loop (base self') = loop (base self).
Proof.
  intros Hheader Hfeed Hcall Hpayload. eexists. split.
  - unfold msg_received. run.
    rewrite (msg_received_unpack_ok _ _ _ _ _ _ _ _ _ _ Hheader Hfeed). cbn.
    rewrite Hcall. cbn.
    destruct (py_iter answer) as [[|exc_type [|exc_args [|]]]|] eqn:Hiter;
      try reflexivity.
    by destruct (Hpayload exc_type exc_args).
  - cbn. split; [done|]. apply feed_unpack_frame in Hfeed. by rewrite Hfeed.
Qed.

(** X10. A response for a call whose future is no longer pending (it was
    cancelled, say) is matched all the same: the entry is popped and
    [set_result] raises [InvalidStateError] out of [msg_received]; the
    future keeps its state. *)
Theorem response_for_done_future header banswer self
    pid rnd req_id ts answer b fut state :
  unpack_HHLdq header = Ok (pid, rnd, req_id, ts, false) →
  feed_unpack banswer (base self) = (Ok answer, b) →
  calls self !! req_id = Some fut →
  loop (base self) !! fut = Some state →
  state ≠ Pending →
  ∃ self',
    msg_received [header; banswer] self = (Raise InvalidStateError, self') ∧
    calls self' = delete req_id (calls self) ∧
    loop (base self') = loop (base self).
Proof.
  intros Hheader Hfeed Hcall Hstate Hdone.
  pose proof (feed_unpack_frame _ _ _ _ Hfeed) as Hb.
  assert (loop b = loop (base self)) as Hloop by by rewrite Hb.
  eexists. split.
  - unfold msg_received. run.
    rewrite (msg_received_unpack_ok _ _ _ _ _ _ _ _ _ _ Hheader Hfeed). cbn.
    rewrite Hcall. cbn. unfold set_result. rewrite Hloop, Hstate.
    destruct state; [done|reflexivity..].
  - cbn. done.
Qed.

(** ** Headers and ids *)

Lemma unpack_request_header pid rnd req_id t prefix suffix :
  pack_HH pid rnd = Ok prefix →
  pack_Ld req_id t = Ok suffix →
  length (prefix ++ suffix)%list = 16%nat ∧
  unpack_HHLd (prefix ++ suffix)%list = Ok (pid, rnd, req_id, t `mod` 2 ^ 64).
Proof.
  unfold pack_HH, pack_Ld. simpl.
  destruct (pack_uint 2 pid) as [b1|] eqn:H1; [simpl|done].
  destruct (pack_uint 2 rnd) as [b2|] eqn:H2; [simpl|done].
  destruct (pack_uint 4 req_id) as [b3|] eqn:H3; [simpl|done].
  intros [= <-] [= <-].
  pose proof (length_pack_uint 2 _ _ ltac:(lia) H1) as L1.
  pose proof (length_pack_uint 2 _ _ ltac:(lia) H2) as L2.
  pose proof (length_pack_uint 4 _ _ ltac:(lia) H3) as L3.
  pose proof (length_pack_double t) as L4.
  change (Z.to_nat 2) with 2%nat in *. change (Z.to_nat 4) with 4%nat in *.
  pose proof (unpack_pack_double t) as H4. remember (pack_double t) as b4.
  assert (length ((b1 ++ b2) ++ b3 ++ b4)%list = 16%nat) as Hlen.
  { rewrite !length_app. lia. }
  split; [done|].
  unfold unpack_HHLd. rewrite decide_True by done.
  clear Heqb4 Hlen.
  do 3 (destruct b1 as [|? b1]; try done).
  do 3 (destruct b2 as [|? b2]; try done).
  do 5 (destruct b3 as [|? b3]; try done).
  do 9 (destruct b4 as [|? b4]; try done).
  cbn [app take drop]. rewrite H4.
  rewrite (unpack_pack_uint 2 _ _ ltac:(lia) H1).
  rewrite (unpack_pack_uint 2 _ _ ltac:(lia) H2).
  by rewrite (unpack_pack_uint 4 _ _ ltac:(lia) H3).
Qed.

(** X11. Request header round trip: the header that [_new_id] builds from
    the client's prefix is 16 bytes long, and the server's [REQ.unpack]
    reads from it the pid and random number of the prefix, the id that
    [_new_id] returned and the time stamp. *)
Theorem request_header_round_trip pid rnd now self header req_id self' :
  pack_HH pid rnd = Ok (prefix self) →
  0 ≤ counter self →
  _new_id now self = (Ok (header, req_id), self') →
  length header = 16%nat ∧
  unpack_HHLd header = Ok (pid, rnd, req_id, now `mod` 2 ^ 64).
Proof.
  intros Hprefix Hc Hid.
  destruct (new_id_spec now self Hc) as (suffix & Hsuffix & Hid').
  rewrite Hid' in Hid. injection Hid as <- <- _.
  by apply unpack_request_header.
Qed.

Lemma next_id_mod n :
  0 ≤ n ≤ 0xffffffff → next_id n = (n + 1) `mod` 2 ^ 32.
Proof.
  intros Hn. unfold next_id. change (2 ^ 32) with 4294967296.
  case_decide.
  - assert (n = 4294967295) as -> by lia. done.
  - symmetry. apply Z.mod_small. lia.
Qed.

Lemma set_counter_set_counter n m self :
  set_counter n (set_counter m self) = set_counter n self.
Proof. done. Qed.

Lemma new_ids_spec nows : ∀ self,
  0 ≤ counter self ≤ 0xffffffff →
  new_ids nows self
  = (Ok ((λ k, (counter self + Z.of_nat k) `mod` 2 ^ 32)
         <$> seq 1 (length nows)),
     set_counter ((counter self + Z.of_nat (length nows)) `mod` 2 ^ 32) self).
Proof.
  induction nows as [|now nows IH]; intros self Hc.
  - cbn. rewrite Z.add_0_r, Z.mod_small; [by destruct self|].
    change (2 ^ 32) with 4294967296. lia.
  - destruct (new_id_spec now self ltac:(lia)) as (suffix & _ & Hid).
    pose proof (next_id_range (counter self) ltac:(lia)) as Hrange.
    change (new_ids (now :: nows))
      with ('(_, req_id) ← _new_id now;
            req_ids ← new_ids nows;
            mret (M := M client_protocol) (req_id :: req_ids)).
    unfold mbind, M_bind, bind. rewrite Hid.
    rewrite IH by done. cbn -[Z.pow Z.modulo seq].
    rewrite set_counter_set_counter.
    rewrite (next_id_mod (counter self)) by done.
    unfold mret, M_ret, ret.
    change (seq 1 (S (length nows))) with (1%nat :: seq 2 (length nows)).
    rewrite <- (fmap_S_seq 1), fmap_cons, <- list_fmap_compose.
    rewrite !Zplus_mod_idemp_l.
    replace (counter self + 1 + Z.of_nat (length nows))
      with (counter self + Z.of_nat (S (length nows))) by lia.
    do 3 f_equal. apply list_fmap_ext. intros _ k _. cbn -[Z.pow Z.modulo].
    rewrite Zplus_mod_idemp_l. f_equal. lia.
Qed.

(** X12. The ids of [n] allocations in a row, from a counter [c] in range,
    are [(c + 1) mod 2^32], ..., [(c + n) mod 2^32]; up to 2^32 allocations
    give pairwise different ids, and the counter ends on the last one. *)
Theorem new_ids_sequence nows self :
  0 ≤ counter self ≤ 0xffffffff →
  ∃ req_ids self',
    new_ids nows self = (Ok req_ids, self') ∧
    req_ids = (λ k, (counter self + Z.of_nat k) `mod` 2 ^ 32)
              <$> seq 1 (length nows) ∧
    counter self' = (counter self + Z.of_nat (length nows)) `mod` 2 ^ 32 ∧
    (Z.of_nat (length nows) ≤ 2 ^ 32 → NoDup req_ids).
Proof.
  intros Hc. eexists _, _. split; [by apply new_ids_spec|].
  split; [done|]. split; [done|].
  intros Hlen. apply NoDup_fmap_2_strong; [|apply NoDup_seq].
  intros x y [Hx1 Hx2]%elem_of_seq [Hy1 Hy2]%elem_of_seq Heq.
  assert ((counter self + Z.of_nat x - (counter self + Z.of_nat y))
            `mod` 2 ^ 32 = 0) as Hdiff.
  { rewrite Zminus_mod, Heq, Z.sub_diag. done. }
  apply Z.mod_divide in Hdiff as [q Hq]; [|done].
  change (2 ^ 32) with 4294967296 in *. nia.
Qed.

(** ** The error table *)

Lemma append_inj_l p a b : p +:+ a = p +:+ b → a = b.
Proof.
  induction p as [|c p IH]; [done|].
  rewrite !append_cons. intros [= H]. by apply IH.
Qed.

Lemma fold_register_lookup (l : list (string * builtin_object)) :
  ∀ (acc : gmap string constructor) key cls,
  foldl (λ error_table '(name, val),
           match val with
           | BuiltinClass true cls =>
               <["builtins." +:+ name := cls]> error_table
           | _ => error_table
           end) acc l !! key = Some cls →
  acc !! key = Some cls ∨
  ∃ name, key = "builtins." +:+ name ∧ (name, BuiltinClass true cls) ∈ l.
Proof.
  induction l as [|[name val] l IH]; intros acc key cls; cbn; [by left|].
  intros [Hacc|(name' & -> & Hin)]%IH.
  - destruct val as [[] cls'|]; try by left.
    apply lookup_insert_Some in Hacc as [[<- <-]|[_ Hacc]]; [|by left].
    right. exists name. split; [done|]. by left.
  - right. exists name'. split; [done|]. by right.
Qed.

Lemma fold_register_fresh (l : list (string * builtin_object)) :
  ∀ (acc : gmap string constructor) name,
  name ∉ l.*1 →
  foldl (λ error_table '(name, val),
           match val with
           | BuiltinClass true cls =>
               <["builtins." +:+ name := cls]> error_table
           | _ => error_table
           end) acc l !! ("builtins." +:+ name)
  = acc !! ("builtins." +:+ name).
Proof.
  induction l as [|[name' val] l IH]; intros acc name; cbn; [done|].
  intros [Hne Hnotin]%not_elem_of_cons. rewrite IH by done.
  destruct val as [[] cls'|]; try done.
  apply lookup_insert_ne. intros Heq%append_inj_l. done.
Qed.

Lemma fold_register_member (l : list (string * builtin_object)) :
  NoDup l.*1 →
  ∀ (acc : gmap string constructor) name cls,
  (name, BuiltinClass true cls) ∈ l →
  foldl (λ error_table '(name, val),
           match val with
           | BuiltinClass true cls =>
               <["builtins." +:+ name := cls]> error_table
           | _ => error_table
           end) acc l !! ("builtins." +:+ name) = Some cls.
Proof.
  induction l as [|[name' val] l IH]; intros Hnd acc name cls Hin; cbn.
  { inversion Hin. }
  cbn in Hnd. apply NoDup_cons in Hnd as [Hfresh Hnd].
  apply elem_of_cons in Hin as [[= <- <-]|Hin].
  - rewrite fold_register_fresh by done. apply lookup_insert_eq.
  - by apply IH.
Qed.

Lemma builtin_key_not_framework name suffix :
  "builtins." +:+ name ≠ __name__ +:+ suffix.
Proof. done. Qed.

(** X13. The error table of a client: the two framework errors are always
    in it under ["aiozmq.rpc.GenericError"] and ["aiozmq.rpc.NotFoundError"];
    any other key is ["builtins." + name] for an exception class of
    [builtins], so a class that is not an [Exception] subclass and an object
    that is not a class are never registered; and with the names of
    [dir(builtins)] distinct, every exception class is found under its
    name. *)
Theorem fill_error_table_spec :
  (_fill_error_table !! "aiozmq.rpc.GenericError" = Some GenericError_class ∧
   _fill_error_table !! "aiozmq.rpc.NotFoundError"
   = Some NotFoundError_class) ∧
  (∀ key cls, _fill_error_table !! key = Some cls →
     (key = "aiozmq.rpc.GenericError" ∧ cls = GenericError_class) ∨
     (key = "aiozmq.rpc.NotFoundError" ∧ cls = NotFoundError_class) ∨
     ∃ name, key = "builtins." +:+ name ∧
             (name, BuiltinClass true cls) ∈ builtins) ∧
  (NoDup builtins.*1 →
   ∀ name cls, (name, BuiltinClass true cls) ∈ builtins →
     _fill_error_table !! ("builtins." +:+ name) = Some cls).
Proof.
  unfold _fill_error_table.
  change (__name__ +:+ ".GenericError") with "aiozmq.rpc.GenericError".
  change (__name__ +:+ ".NotFoundError") with "aiozmq.rpc.NotFoundError".
  split; [|split].
  - split; [|apply lookup_insert_eq].
    rewrite lookup_insert_ne by done. apply lookup_insert_eq.
  - intros key cls [[<- <-]|[_ Hkey]]%lookup_insert_Some; [by right; left|].
    apply lookup_insert_Some in Hkey as [[<- <-]|[_ Hkey]]; [by left|].
    apply fold_register_lookup in Hkey as [Hempty|Hin]; [done|].
    by right; right.
  - intros Hnd name cls Hin.
    rewrite !lookup_insert_ne by apply not_eq_sym, builtin_key_not_framework.
    by apply fold_register_member.
Qed.

(** ** The server side of a call *)

Lemma process_call_result_ok now now' ret req_id peer self
    written suffix payload :
  transport (sbase self) = Some written →
  pack_Ldq req_id now false = Ok suffix →
  packer_pack ret = Ok payload →
  process_call_result now now' (Ok ret) req_id peer self
  = (Ok tt,
     set_sbase
       (set_transport
          (Some (written ++ [[peer; (sprefix self ++ suffix)%list; payload]])%list)
          (sbase self)) self).
Proof.
  intros Htransport Hsuffix Hpayload. unfold process_call_result. run.
  rewrite Hsuffix. cbn. unfold transport_write_method.
  rewrite Htransport. cbn. rewrite Hpayload. cbn.
  unfold transport_write. cbn. by rewrite Htransport.
Qed.

Lemma server_msg_received_ok peer header bname bargs bkwargs
    (self : server_protocol) pid rnd req_id ts name func args kwargs b1 b2
    ret :
  unpack_HHLd header = Ok (pid, rnd, req_id, ts) →
  utf8_decode bname = Ok name →
  dispatch self name = Ok func →
  feed_unpack bargs (sbase self) = (Ok args, b1) →
  feed_unpack bkwargs b1 = (Ok kwargs, b2) →
  iscoroutinefunction func = false →
  invoke func args kwargs = Ok ret →
  server_msg_received [peer; header; bname; bargs; bkwargs] self
  = (Ok (Completed (Ok ret) req_id peer), set_sbase b2 self).
Proof.
  intros Hheader Hname Hdispatch Hargs Hkwargs Hsync Hret.
  unfold server_msg_received. run. rewrite Hheader. cbn. rewrite Hname. cbn.
  rewrite Hdispatch. cbn. rewrite Hargs. cbn. rewrite Hkwargs. cbn.
  by rewrite Hsync, Hret.
Qed.

Lemma server_msg_received_missing peer header bname bargs bkwargs
    (self : server_protocol) pid rnd req_id ts name :
  unpack_HHLd header = Ok (pid, rnd, req_id, ts) →
  utf8_decode bname = Ok name →
  dispatch self name = Raise (NotFoundError [VStr name]) →
  server_msg_received [peer; header; bname; bargs; bkwargs] self
  = (Ok (Completed (Raise (NotFoundError [VStr name])) req_id peer), self).
Proof.
  intros Hheader Hname Hdispatch.
  unfold server_msg_received. run. rewrite Hheader. cbn. rewrite Hname. cbn.
  by rewrite Hdispatch.
Qed.

(** X14. A request whose name [dispatch] does not find is answered, not
    dropped: [msg_received] returns with a future that failed with
    [NotFoundError(name)], and it has not looked at the argument blobs (the
    unpacker and the rest of the server are as they were). An exception of
    [dispatch] that is not a [NotFoundError] goes out of [msg_received]. *)
Theorem server_msg_received_not_found peer header bname bargs bkwargs
    (self : server_protocol) pid rnd req_id ts name exc :
  unpack_HHLd header = Ok (pid, rnd, req_id, ts) →
  utf8_decode bname = Ok name →
  dispatch self name = Raise exc →
  server_msg_received [peer; header; bname; bargs; bkwargs] self
  = (if exc_isinstance __name__ "NotFoundError" exc
     then Ok (Completed (Raise exc) req_id peer) else Raise exc, self).
Proof.
  intros Hheader Hname Hdispatch.
  unfold server_msg_received. run. rewrite Hheader. cbn. rewrite Hname. cbn.
  rewrite Hdispatch. by destruct (exc_isinstance __name__ "NotFoundError" exc).
Qed.

(** X15. What the [try] around a handler keeps inside the future. For a
    function that is not a coroutine function, [msg_received] returns with a
    future completed with the value that [func( *args, **kwargs)] returned,
    or failed with the exception it raised when that is an [Exception] that
    the future takes; an exception that is not an [Exception], and the
    [TypeError] of [set_exception] for a [StopIteration], go out of
    [msg_received]. For a coroutine function it makes a task of the
    coroutine object, and an exception of the call that should make that
    object goes out of [msg_received]. The unpacker has taken both blobs
    in. *)
Theorem server_msg_received_invokes peer header bname bargs bkwargs
    (self : server_protocol) pid rnd req_id ts name func args kwargs b1 b2 :
  unpack_HHLd header = Ok (pid, rnd, req_id, ts) →
  utf8_decode bname = Ok name →
  dispatch self name = Ok func →
  feed_unpack bargs (sbase self) = (Ok args, b1) →
  feed_unpack bkwargs b1 = (Ok kwargs, b2) →
  server_msg_received [peer; header; bname; bargs; bkwargs] self
  = (if iscoroutinefunction func
     then match invoke func args kwargs with
          | Ok coro => Ok (Task coro req_id peer)
          | Raise exc => Raise exc
          end
     else match invoke func args kwargs with
          | Ok ret => Ok (Completed (Ok ret) req_id peer)
          | Raise exc =>
              if isinstance_Exception exc
              then if refused_by_future exc then Raise TypeError
                   else Ok (Completed (Raise exc) req_id peer)
              else Raise exc
          end,
     set_sbase b2 self).
Proof.
  intros Hheader Hname Hdispatch Hargs Hkwargs.
  unfold server_msg_received. run. rewrite Hheader. cbn. rewrite Hname. cbn.
  rewrite Hdispatch. cbn. rewrite Hargs. cbn. rewrite Hkwargs. cbn.
  destruct (iscoroutinefunction func);
    destruct (invoke func args kwargs) as [ret|exc]; try done.
  destruct (isinstance_Exception exc); [|done].
  by destruct (refused_by_future exc).
Qed.

(** X16. A result that the packer refuses is not lost: the exception of the
    packer is caught by the [except] of [process_call_result] and sent to
    the client as an error response, in place of the result. *)
Theorem process_call_result_pack_failure now now' ret req_id peer
    (self : server_protocol) written exc suffix payload :
  transport (sbase self) = Some written →
  0 ≤ req_id ≤ 0xffffffff →
  packer_pack ret = Raise exc →
  pack_Ldq req_id now' true = Ok suffix →
  packer_pack
    (VTuple [VStr (exc_module exc +:+ "." +:+ exc_name exc);
             VTuple (exc_args exc)]) = Ok payload →
  process_call_result now now' (Ok ret) req_id peer self
  = (Ok tt,
     set_sbase
       (set_transport
          (Some (written ++ [[peer; (sprefix self ++ suffix)%list; payload]])%list)
          (sbase self)) self).
Proof.
  intros Htransport Hreq Hret Hsuffix Hpayload.
  destruct (pack_Ldq_ok req_id now false Hreq) as [suffix0 Hsuffix0].
  unfold process_call_result. run.
  rewrite Hsuffix0. cbn. unfold transport_write_method.
  rewrite Htransport. cbn. rewrite Hret. cbn.
  rewrite Hsuffix. cbn. rewrite Htransport. cbn. rewrite Hpayload. cbn.
  unfold transport_write. cbn. by rewrite Htransport.
Qed.


(** ** Round trips *)

Lemma feed_unpack_congr b self r self' other :
  feed_unpack b self = (r, self') →
  unpacker other = unpacker self →
  feed_unpack b other = (r, set_unpacker (unpacker self') other).
Proof.
  unfold feed_unpack. run. intros Hrun ->.
  destruct (unpacker_feed b (unpacker self)) as [[[]|e] u1]; cbn in *.
  - destruct (unpacker_unpack u1) as [r' u2]. by injection Hrun as <- <-.
  - by injection Hrun as <- <-.
Qed.

Lemma fill_error_table_NotFoundError :
  _fill_error_table !! "aiozmq.rpc.NotFoundError" = Some NotFoundError_class.
Proof. unfold _fill_error_table. apply lookup_insert_eq. Qed.

(** X18. Result round trip: the value that a handler returned, written by
    [process_call_result] as a response without the error flag, resolves the
    future of the call on the client with what the client's unpacker makes
    of the payload, and the entry of the call is removed. *)
Theorem result_round_trip now now' ret req_id peer pid rnd
    (server : server_protocol) written payload
    (client : client_protocol) ret' b fut :
  transport (sbase server) = Some written →
  pack_HH pid rnd = Ok (sprefix server) →
  0 ≤ req_id ≤ 0xffffffff →
  packer_pack ret = Ok payload →
  feed_unpack payload (base client) = (Ok ret', b) →
  calls client !! req_id = Some fut →
  loop (base client) !! fut = Some Pending →
  ∃ header server' client',
    process_call_result now now' (Ok ret) req_id peer server
    = (Ok tt, server') ∧
    transport (sbase server')
    = Some (written ++ [[peer; header; payload]])%list ∧
    unpack_HHLdq header = Ok (pid, rnd, req_id, now `mod` 2 ^ 64, false) ∧
    msg_received [header; payload] client = (Ok tt, client') ∧
    loop (base client') !! fut = Some (Finished ret') ∧
    calls client' = delete req_id (calls client).
Proof.
  intros Htransport Hprefix Hreq Hpayload Hfeed Hcall Hpending.
  destruct (pack_Ldq_ok req_id now false Hreq) as [suffix Hsuffix].
  pose proof (unpack_response_header _ _ _ _ _ _ _ Hprefix Hsuffix) as Hheader.
  eexists (sprefix server ++ suffix)%list, _, _.
  split; [by eapply process_call_result_ok|].
  split; [done|]. split; [done|].
  split; [by eapply msg_received_result|].
  cbn. split; [apply lookup_insert_eq|done].
Qed.


(** X20. A name that the server does not find comes back as
    [NotFoundError(name)]: the request is answered with an error response,
    and a client with the table of [_fill_error_table] rejects the future of
    the call with a [NotFoundError] that carries the name. *)
Theorem not_found_round_trip now now' request_header bname bargs bkwargs
    peer cpid crnd req_id ts name pid rnd
    (server : server_protocol) written payload
    (client : client_protocol) answer wire_args b fut :
  unpack_HHLd request_header = Ok (cpid, crnd, req_id, ts) →
  0 ≤ req_id ≤ 0xffffffff →
  utf8_decode bname = Ok name →
  dispatch server name = Raise (NotFoundError [VStr name]) →
  transport (sbase server) = Some written →
  pack_HH pid rnd = Ok (sprefix server) →
  packer_pack (VTuple [VStr "aiozmq.rpc.NotFoundError"; VTuple [VStr name]])
  = Ok payload →
  error_table client = _fill_error_table →
  feed_unpack payload (base client) = (Ok answer, b) →
  py_iter answer = Some [VStr "aiozmq.rpc.NotFoundError"; wire_args] →
  py_iter wire_args = Some [VStr name] →
  calls client !! req_id = Some fut →
  loop (base client) !! fut = Some Pending →
  ∃ header server' client',
    server_msg_received [peer; request_header; bname; bargs; bkwargs] server
    = (Ok (Completed (Raise (NotFoundError [VStr name])) req_id peer),
       server) ∧
    process_call_result now now' (Raise (NotFoundError [VStr name])) req_id
      peer server = (Ok tt, server') ∧
    transport (sbase server')
    = Some (written ++ [[peer; header; payload]])%list ∧
    msg_received [header; payload] client = (Ok tt, client') ∧
    loop (base client') !! fut = Some (Failed (NotFoundError [VStr name])).
Proof.
  intros Hrequest Hreq Hname Hdispatch Htransport Hprefix Hpayload Htable
    Hfeed Hanswer Hargs Hcall Hpending.
  destruct (pack_Ldq_ok req_id now' true Hreq) as [suffix Hsuffix].
  pose proof (unpack_response_header _ _ _ _ _ _ _ Hprefix Hsuffix) as Hheader.
  assert (_translate_error client (VStr "aiozmq.rpc.NotFoundError") wire_args
          = Ok (NotFoundError [VStr name])) as Htr.
  { rewrite (translate_error_hit client _ _ _ NotFoundError_class Hargs);
      [done|]. rewrite Htable. apply fill_error_table_NotFoundError. }
  eexists (sprefix server ++ suffix)%list, _, _.
  split; [by eapply server_msg_received_missing|].
  split; [by eapply (process_call_result_error _ _ (NotFoundError [VStr name]))|].
  split; [done|].
  split; [by eapply msg_received_error|].
  cbn. apply lookup_insert_eq.
Qed.

(** X21. A whole call. The client calls [name] with [args] and [kwargs];
    the server receives the request that the client wrote (behind the peer
    frame), finds a function that is not a coroutine function and calls it;
    the function returns [ret]; the server writes the response; the client
    receives it. Then the id that the server read is the id that the client
    registered, the future that [call] returned holds the unpacked result,
    and the registry is back to what it was before the call. *)
Theorem call_round_trip now now1 now2 name args kwargs
    (client : client_protocol) (server : server_protocol)
    bname bargs bkwargs cwritten swritten pid rnd spid srnd peer
    func args' kwargs' b1 b2 ret payload ret' b3 :
  0 ≤ counter client →
  pack_HH pid rnd = Ok (prefix client) →
  transport (base client) = Some cwritten →
  calls client !! next_id (counter client) = None →
  utf8_encode name = Ok bname →
  packer_pack args = Ok bargs →
  packer_pack kwargs = Ok bkwargs →
  utf8_decode bname = Ok name →
  dispatch server name = Ok func →
  iscoroutinefunction func = false →
  feed_unpack bargs (sbase server) = (Ok args', b1) →
  feed_unpack bkwargs b1 = (Ok kwargs', b2) →
  invoke func args' kwargs' = Ok ret →
  transport (sbase server) = Some swritten →
  pack_HH spid srnd = Ok (sprefix server) →
  packer_pack ret = Ok payload →
  feed_unpack payload (base client) = (Ok ret', b3) →
  ∃ fut request client1 server1 header server2 client2,
    call now name args kwargs client = (Ok fut, client1) ∧
    transport (base client1) = Some (cwritten ++ [request])%list ∧
    server_msg_received (peer :: request) server
    = (Ok (Completed (Ok ret) (next_id (counter client)) peer), server1) ∧
    process_call_result now1 now2 (Ok ret) (next_id (counter client)) peer
      server1 = (Ok tt, server2) ∧
    transport (sbase server2)
    = Some (swritten ++ [[peer; header; payload]])%list ∧
    msg_received [header; payload] client1 = (Ok tt, client2) ∧
    loop (base client2) !! fut = Some (Finished ret') ∧
    calls client2 = calls client.
Proof.
  intros Hc Hprefix Hctransport Hfree Hname Hargs Hkwargs Hdecode Hdispatch
    Hsync Hfeed1 Hfeed2 Hinvoke Hstransport Hsprefix Hpayload Hfeed3.
  destruct (call_ok now _ _ _ _ _ _ _ _ Hc Hname Hargs Hkwargs Hctransport
              Hfree) as (suffix & Hsuffix & Hcall).
  pose proof (next_id_range _ Hc) as Hreq.
  set (req_id := next_id (counter client)) in *.
  set (fut := fresh (dom (loop (base client)))) in *.
  destruct (unpack_request_header _ _ _ _ _ _ Hprefix Hsuffix)
    as [_ Hrequest].
  destruct (pack_Ldq_ok req_id now1 false Hreq) as [suffix' Hsuffix'].
  pose proof (unpack_response_header _ _ _ _ _ _ _ Hsprefix Hsuffix')
    as Hheader.
  eexists fut, _, _, _, (sprefix server ++ suffix')%list, _, _.
  split; [exact Hcall|]. split; [reflexivity|].
  split.
  { by rewrite (server_msg_received_ok _ _ _ _ _ _ _ _ _ _ _ _ _ _ _ _ _
                  Hrequest Hdecode Hdispatch Hfeed1 Hfeed2 Hsync Hinvoke). }
  split.
  { eapply process_call_result_ok; [|exact Hsuffix'|exact Hpayload].
    cbn. apply feed_unpack_frame in Hfeed2 as ->.
    apply feed_unpack_frame in Hfeed1 as ->. exact Hstransport. }
  split; [reflexivity|].
  split.
  { eapply msg_received_result; [exact Hheader| | |].
    - eapply feed_unpack_congr; [exact Hfeed3|]. reflexivity.
    - cbn. apply lookup_insert_eq.
    - cbn. apply lookup_insert_eq. }
  cbn. split; [apply lookup_insert_eq|]. by apply delete_insert_id.
Qed.

(** ** Waiters *)

Lemma for_each_app {S A} (l1 l2 : list A) (body : A → M S unit) self :
  for_each (l1 ++ l2) body self
  = match for_each l1 body self with
    | (Ok _, self') => for_each l2 body self'
    | (Raise exc, self') => (Raise exc, self')
    end.
Proof.
  revert self. induction l1 as [|x l1 IH]; intros self; cbn; [done|].
  unfold bind. destruct (body x self) as [[[]|exc] self1]; [|done].
  apply IH.
Qed.

(** X22. A waiter that is not pending any more (its [wait_closed] was
    cancelled, or the connection was lost once already) stops
    [connection_lost]: it raises [InvalidStateError] with the transport set
    to [None], the waiters before the stale one released, and no other
    future touched, so the waiters after it are never released. The call
    registry is as it was. *)
Theorem connection_lost_stale_waiter exc self before w after state :
  done_waiters (base self) = (before ++ w :: after)%list →
  NoDup before →
  w ∉ before →
  (∀ w', w' ∈ before → loop (base self) !! w' = Some Pending) →
  loop (base self) !! w = state →
  state ≠ Some Pending →
  ∃ self',
    on_base (connection_lost exc) self = (Raise InvalidStateError, self') ∧
    transport (base self') = None ∧
    (∀ w', w' ∈ before → loop (base self') !! w' = Some (Finished VNone)) ∧
    (∀ fut, fut ∉ before →
       loop (base self') !! fut = loop (base self) !! fut) ∧
    calls self' = calls self.
Proof.
  intros Hwaiters Hnd Hw Hpending Hstate Hdone.
  destruct (for_each_set_result_ok before (set_transport None (base self))
              Hnd Hpending) as (b' & Hrun & Hreleased).
  destruct (for_each_set_result_frame _ _ _ _ Hrun) as [Hb' Hframe].
  exists (set_base b' self). split; [|split; [|split; [|split]]].
  - unfold on_base, connection_lost. run. rewrite Hwaiters, for_each_app, Hrun.
    cbn. unfold bind at 1, set_result at 1.
    rewrite (Hframe w Hw). cbn. rewrite Hstate.
    by destruct state as [[]|].
  - cbn. by rewrite Hb'.
  - done.
  - intros fut Hfut. cbn. by rewrite Hframe.
  - done.
Qed.

(** X23. [wait_closed] and [connection_lost] together: on a connected
    client in a reachable state, [wait_closed] registers a new pending
    waiter, the [connection_lost] that follows releases it with [None] and
    keeps the registry, and a [wait_closed] after that returns at once
    without registering anything. *)
Theorem wait_closed_released exc self written :
  client_inv self →
  transport (base self) = Some written →
  ∃ waiter self1 self2,
    on_base wait_closed self = (Ok (Some waiter), self1) ∧
    (waiter ∉ dom (loop (base self))) ∧
    on_base (connection_lost exc) self1 = (Ok tt, self2) ∧
    loop (base self2) !! waiter = Some (Finished VNone) ∧
    calls self2 = calls self ∧
    on_base wait_closed self2 = (Ok None, self2).
Proof.
  intros Hinv Htransport.
  set (waiter := fresh (dom (loop (base self)))).
  set (self1 :=
    set_base
      (set_done_waiters (done_waiters (base self) ++ [waiter])%list
         (set_loop (<[waiter := Pending]> (loop (base self))) (base self)))
      self).
  assert (on_base wait_closed self = (Ok (Some waiter), self1)) as Hwait.
  { unfold on_base, wait_closed. run. by rewrite Htransport. }
  pose proof (wait_closed_inv _ _ _ Hinv Hwait) as (_ & Hnd & Hpending & _).
  assert (calls self1 = calls self) as Hcalls by done.
  assert (waiter ∈ done_waiters (base self1)) as Hin.
  { cbn. apply elem_of_app. right. by apply list_elem_of_singleton. }
  pose proof (is_fresh (dom (loop (base self)))) as Hfresh.
  fold waiter in Hfresh. clearbody self1 waiter.
  destruct (for_each_set_result_ok (done_waiters (base self1))
              (set_transport None (base self1)) Hnd Hpending)
    as (b' & Hrun & Hreleased).
  destruct (for_each_set_result_frame _ _ _ _ Hrun) as [Hb' _].
  exists waiter, self1, (set_base b' self1).
  split; [done|]. split; [done|].
  split.
  { unfold on_base, connection_lost. run. by rewrite Hrun. }
  split; [by apply Hreleased|].
  split; [done|].
  unfold on_base, wait_closed. run. rewrite Hb'. cbn. by destruct self1.
Qed.

(** X24. The invariant of the reachable client states: a client made by
    [_ClientProtocol.__init__] satisfies [client_inv], and [call],
    [msg_received], [wait_closed] and [connection_made] keep it, whether
    they return or raise. So the counter stays in range, the waiters stay
    pending and registered once, and the future of a call is never a
    waiter. *)
Theorem client_inv_reachable :
  (∀ futures pid rnd self,
     client_init futures pid rnd = Ok self → client_inv self) ∧
  (∀ self, client_inv self →
     0 ≤ next_id (counter self) ≤ 0xffffffff ∧
     (∀ now name args kwargs r self',
        call now name args kwargs self = (r, self') → client_inv self') ∧
     (∀ data r self',
        msg_received data self = (r, self') → client_inv self') ∧
     (∀ r self', on_base wait_closed self = (r, self') → client_inv self') ∧
     (∀ written r self',
        on_base (connection_made written) self = (r, self') →
        client_inv self')).
Proof.
  split; [intros futures pid rnd self; apply client_init_inv|].
  intros self Hinv. split; [apply next_id_range, Hinv|].
  split; [intros now name args kwargs r self'; by apply call_inv|].
  split; [intros data r self'; by apply msg_received_inv|].
  split; [intros r self'; by apply wait_closed_inv|].
  intros written r self'. unfold on_base, connection_made. run.
  by intros [= <- <-].
Qed.

End Model.

(** * The model on concrete messages

    A little-endian host, the small codec, a client with one call in flight
    and a server with the handler tree [{"ns": {"add": ..., "hid": ...}}],
    where [add] is an endpoint and [hid] is not. *)

Module Example.
Import MiniMsgpack.

Definition new_client : client_protocol :=
  ClientProtocol (BaseProtocol ∅ (Some []) [] new_unpacker []) ∅
    [Byte.x92; Byte.x10; Byte.x07; Byte.x00] 0 (_fill_error_table builtins).

(** [new_client] after one [call]: request 1 waits on future 0. *)
Definition client : client_protocol :=
  ClientProtocol
    (BaseProtocol {[0%nat := Pending]} (Some []) [] new_unpacker [])
    {[1 := 0%nat]} [Byte.x92; Byte.x10; Byte.x07; Byte.x00] 1
    (_fill_error_table builtins).

(** [client] with a [wait_closed] suspended on future 1 *)
Definition closing_client : client_protocol :=
  ClientProtocol
    (BaseProtocol {[0%nat := Pending; 1%nat := Pending]} (Some [])
       [1%nat] new_unpacker [])
    {[1 := 0%nat]} [Byte.x92; Byte.x10; Byte.x07; Byte.x00] 1
    (_fill_error_table builtins).

(** [closing_client] with a second waiter, after the first was cancelled *)
Definition stale_client : client_protocol :=
  set_base
    (set_done_waiters [1%nat; 2%nat]
       (set_loop {[0%nat := Pending; 1%nat := Cancelled; 2%nat := Pending]}
          (base closing_client)))
    closing_client.

(** A client that has made 0xFFFFFFFE calls *)
Definition old_client : client_protocol := set_counter 0xfffffffe new_client.

Definition root : pyobj :=
  PyHandler
    {[ "ns" := PyHandler {[ "add" := PyFunction "add" true;
                            "hid" := PyFunction "hid" false ]} false ]}
    false.

Definition server : server_protocol :=
  ServerProtocol (BaseProtocol ∅ (Some []) [] new_unpacker []) root
    [Byte.x01; Byte.x00; Byte.x02; Byte.x00].



Definition peer : bytes := [Byte.x70].

(** [RESP.pack(1, 2, req_id, 0.0, is_error)] *)
Definition response_header (req_id : Z) (is_error : bool) : bytes :=
  ([Byte.x01; Byte.x00; Byte.x02; Byte.x00]
   ++ (byte_of_Z <$> Z_to_little_endian 4 8 req_id)
   ++ [Byte.x00; Byte.x00; Byte.x00; Byte.x00;
       Byte.x00; Byte.x00; Byte.x00; Byte.x00]
   ++ [if is_error then Byte.x01 else Byte.x00])%list.


(** The same for an exception class the client does not know *)
Definition custom_payload : bytes :=
  ([Byte.x92; Byte.xab] ++ ascii_bytes "app.MyError"
   ++ [Byte.x91; Byte.xa1] ++ ascii_bytes "x")%list.

Example client_init_new_client :
  client_init LittleEndian new_unpacker builtins ∅ 4242 7
  = Ok (set_base (base_init new_unpacker ∅) new_client).
Proof. reflexivity. Qed.

Example call_new_client :
  (call LittleEndian pack utf8_encode 0 "ns.add" (VTuple [VInt 2; VInt 3])
     (VDict []) new_client).1 = Ok 0%nat ∧
  calls (call LittleEndian pack utf8_encode 0 "ns.add"
           (VTuple [VInt 2; VInt 3]) (VDict []) new_client).2
  = calls client.
Proof. split; reflexivity. Qed.

Example wait_closed_client :
  on_base wait_closed client = (Ok (Some 1%nat), closing_client).
Proof. reflexivity. Qed.

End Example.

Import Example MiniMsgpack.

(** C5 at a counter of 0xFFFFFFFE: the next id is 0xFFFFFFFF and the one
    after it is 0. *)
Lemma new_id_wrap_witness :
  0 ≤ counter old_client ∧
  ∃ header1 self1 header2 self2,
    _new_id LittleEndian 17 old_client = (Ok (header1, 0xffffffff), self1) ∧
    _new_id LittleEndian 18 self1 = (Ok (header2, 0), self2).
Proof.
  assert (0 ≤ counter old_client) as Hc by (vm_compute; discriminate).
  split; [exact Hc|].
  destruct (new_id_wrap LittleEndian 17 18 old_client Hc)
    as (_ & Hnext & Hwrap).
  destruct Hnext as (header1 & self1 & Hid1); [reflexivity|].
  destruct (Hwrap header1 self1 Hid1) as (header2 & self2 & Hid2 & _).
  exists header1, self1, header2, self2. split; [exact Hid1|exact Hid2].
Defined.

(** C6 on two calls of a new client *)
Lemma call_ids_distinct_witness :
  let requests := [(17, "ns.add", VTuple [VInt 2; VInt 3], VDict []);
                   (18, "ns.add", VTuple [VInt 4; VInt 5], VDict [])] in
  0 ≤ counter new_client ∧
  calls new_client
  ⊆ calls (call_all LittleEndian pack utf8_encode requests new_client).2.
Proof.
  intros requests.
  assert (0 ≤ counter new_client) as Hc by (vm_compute; discriminate).
  split; [exact Hc|].
  destruct (call_ids_distinct LittleEndian pack utf8_encode requests
              new_client Hc) as [Hall _].
  destruct (call_all LittleEndian pack utf8_encode requests new_client)
    as [rs self'] eqn:Hrun.
  destruct (Hall rs self' eq_refl) as [Hsub _]. exact Hsub.
Defined.

(** C7 on a response with [req_id = 0xDEADBEEF] while call 1 is pending *)
Lemma msg_received_unmatched_witness :
  let header := response_header 0xdeadbeef false in
  let banswer := [Byte.x05] in
  unpack_HHLdq LittleEndian header = Ok (1, 2, 0xdeadbeef, 0, false) ∧
  feed_unpack feed unpack banswer (base client) = (Ok (VInt 5), base client) ∧
  calls client !! 0xdeadbeef = None ∧
  calls (msg_received LittleEndian feed unpack [header; banswer] client).2
  = calls client ∧
  loop (base (msg_received LittleEndian feed unpack [header; banswer]
                client).2) !! 0%nat = Some Pending.
Proof.
  intros header banswer.
  assert (unpack_HHLdq LittleEndian header = Ok (1, 2, 0xdeadbeef, 0, false))
    as Hheader by reflexivity.
  assert (feed_unpack feed unpack banswer (base client)
          = (Ok (VInt 5), base client)) as Hfeed by reflexivity.
  assert (calls client !! 0xdeadbeef = None) as Hnone by reflexivity.
  do 3 (split; [done|]).
  destruct (msg_received_unmatched LittleEndian feed unpack header banswer
              client 1 2 0xdeadbeef 0 false (VInt 5) (base client)
              Hheader Hfeed Hnone) as (_ & Hcalls & Hloop).
  split; [exact Hcalls|]. rewrite Hloop. reflexivity.
Defined.

(** C8 on a message of one frame *)
Lemma msg_received_decode_failure_witness :
  let data := [response_header 1 false] in
  decode_failure feed unpack data client ∧
  calls (msg_received LittleEndian feed unpack data client).2 = calls client ∧
  loop (base (msg_received LittleEndian feed unpack data client).2)
  = loop (base client).
Proof.
  intros data.
  assert (decode_failure feed unpack data client) as Hfail.
  { left. simpl. lia. }
  split; [exact Hfail|].
  destruct (msg_received_decode_failure LittleEndian feed unpack data client
              Hfail) as (u & _ & Hcalls & Hloop).
  split; [exact Hcalls|exact Hloop].
Defined.

(** C4 on an error response for call 1 that names [app.MyError] *)
Lemma translate_error_spec_witness :
  py_iter (VList [VStr "x"]) = Some [VStr "x"] ∧
  _translate_error client (VStr "app.MyError") (VList [VStr "x"])
  = Ok (GenericError (VStr "app.MyError") (VTuple [VStr "x"])) ∧
  ∃ self',
    msg_received LittleEndian feed unpack
      [response_header 1 true; custom_payload] client = (Ok tt, self') ∧
    loop (base self') !! 0%nat
    = Some (Failed (GenericError (VStr "app.MyError") (VTuple [VStr "x"]))).
Proof.
  assert (py_iter (VList [VStr "x"]) = Some [VStr "x"]) as Hargs
    by reflexivity.
  split; [exact Hargs|].
  destruct (translate_error_spec LittleEndian feed unpack client
              "app.MyError" (VList [VStr "x"]) [VStr "x"] Hargs)
    as [Hmiss _].
  destruct Hmiss as [Htranslate Hreject]; [reflexivity|].
  split; [exact Htranslate|].
  destruct (Hreject (response_header 1 true) custom_payload 1 2 1 0
              (VList [VStr "app.MyError"; VList [VStr "x"]]) (base client)
              0%nat) as (self' & Hrun & Hfut & _); try reflexivity.
  exists self'. split; [exact Hrun|exact Hfut].
Defined.

(** C10 on a client with call 1 pending and one waiter *)
Lemma connection_lost_keeps_calls_witness :
  NoDup (done_waiters (base closing_client)) ∧
  (∀ w, w ∈ done_waiters (base closing_client) →
     loop (base closing_client) !! w = Some Pending) ∧
  (∀ req_id fut, calls closing_client !! req_id = Some fut →
     fut ∉ done_waiters (base closing_client)) ∧
  ∃ self',
    on_base (connection_lost None) closing_client = (Ok tt, self') ∧
    transport (base self') = None ∧
    loop (base self') !! 1%nat = Some (Finished VNone) ∧
    calls self' !! 1 = Some 0%nat ∧
    loop (base self') !! 0%nat = Some Pending.
Proof.
  assert (NoDup (done_waiters (base closing_client))) as Hnd.
  { apply NoDup_singleton. }
  assert (∀ w, w ∈ done_waiters (base closing_client) →
            loop (base closing_client) !! w = Some Pending) as Hpending.
  { intros w Hw. apply list_elem_of_singleton in Hw as ->. reflexivity. }
  assert (∀ req_id fut, calls closing_client !! req_id = Some fut →
            fut ∉ done_waiters (base closing_client)) as Hdisjoint.
  { intros req_id fut Hcall. change (calls closing_client) with
      ({[1 := 0%nat]} : gmap Z nat) in Hcall.
    apply lookup_singleton_Some in Hcall as [_ <-].
    intros Hin. apply list_elem_of_singleton in Hin. discriminate. }
  do 3 (split; [assumption|]).
  destruct (connection_lost_keeps_calls None closing_client Hnd Hpending
              Hdisjoint) as (self' & Hrun & Htransport & Hdone & Hcalls & Hkeep).
  exists self'. split; [exact Hrun|]. split; [exact Htransport|].
  split; [apply Hdone; by apply list_elem_of_singleton|].
  split; [by rewrite Hcalls|].
  by rewrite (Hkeep 1 0%nat).
Defined.


(** C3 on [ns.hid], which is there but is not an endpoint *)
Lemma dispatch_endpoint_gating_witness :
  resolve (handler server) "ns.hid" = Some (PyFunction "hid" false) ∧
  dispatch server "ns.hid" = Raise (NotFoundError [VStr "ns.hid"]).
Proof.
  assert (resolve (handler server) "ns.hid" = Some (PyFunction "hid" false))
    as Hresolve by reflexivity.
  split; [exact Hresolve|].
  destruct (dispatch_endpoint_gating server "ns.hid" (PyFunction "hid" false)
              Hresolve) as (_ & Hgate & _).
  apply Hgate. reflexivity.
Defined.



(** A root of a class of its own whose [__getitem__] raises [ValueError]:
    the exception leaves [dispatch] as it is. *)
Example dispatch_custom_handler :
  dispatch
    (ServerProtocol (sbase server)
       (PyCustom "broken" (λ _, Raise ValueError) false) (sprefix server))
    "ns.add"
  = Raise ValueError.
Proof. reflexivity. Qed.

(** C10 as it is stated is about every client state with a call pending.
    On the client whose first waiter was cancelled, [set_result] on that
    waiter raises [InvalidStateError] out of [connection_lost], and the
    second waiter, which is pending, is not given its result. *)
Lemma connection_lost_cancelled_waiter_counterexample :
  calls stale_client !! 1 = Some 0%nat ∧
  2%nat ∈ done_waiters (base stale_client) ∧
  (∃ self',
     on_base (connection_lost None) stale_client
     = (Raise InvalidStateError, self') ∧
     loop (base self') !! 2%nat = Some Pending) ∧
  ¬ (∃ self',
       on_base (connection_lost None) stale_client = (Ok tt, self') ∧
       ∀ w, w ∈ done_waiters (base stale_client) →
            loop (base self') !! w = Some (Finished VNone)).
Proof.
  split; [reflexivity|].
  split; [apply list_elem_of_further, list_elem_of_here|].
  split.
  - eexists. split; reflexivity.
  - intros (self' & Hrun & _). discriminate Hrun.
Qed.

(** The server on what the socket delivers when a peer sends the single
    frame [b"x"], and on a request whose header has 20 bytes: both raise out
    of [msg_received]. *)
Example server_msg_received_short_message :
  server_msg_received LittleEndian feed unpack utf8_decode (λ _, false)
    (λ _ _ _, Ok VNone) (λ _, true) [peer; [Byte.x78]] server
  = (Raise ValueError, server).
Proof. reflexivity. Qed.

Example server_msg_received_long_header :
  server_msg_received LittleEndian feed unpack utf8_decode (λ _, false)
    (λ _ _ _, Ok VNone) (λ _, true)
    [peer; replicate 20 Byte.x00; ascii_bytes "ns.add"; [Byte.x90];
     [Byte.x80]] server
  = (Raise struct_error, server).
Proof. reflexivity. Qed.

(** * More concrete runs

    The handlers of the example server, and the bytes of one request. *)

Module Scenario.

(** [add(a, b)] returns [a + b]; [hid] is not reached. *)
Definition invoke (func : pyobj) (args kwargs : value) : result value :=
  match func, args with
  | PyFunction "add" _, VList [VInt a; VInt b] => Ok (VInt (a + b))
  | _, _ => Raise TypeError
  end.

Definition iscoroutinefunction (func : pyobj) : bool := false.

(** A handler that a [KeyboardInterrupt] stops *)
Definition KeyboardInterrupt : pyexc := PyExc "builtins" "KeyboardInterrupt" [].

Definition interrupted (func : pyobj) (args kwargs : value) : result value :=
  Raise KeyboardInterrupt.

(** The exceptions of [builtins] that [except Exception] does not catch *)
Definition isinstance_Exception (exc : pyexc) : bool :=
  negb (exc_isinstance "builtins" "KeyboardInterrupt" exc
        || exc_isinstance "builtins" "SystemExit" exc
        || exc_isinstance "builtins" "GeneratorExit" exc).

(** [REQ.pack(4242, 7, req_id, 0.0)] *)
Definition request_header (req_id : Z) : bytes :=
  ([Byte.x92; Byte.x10; Byte.x07; Byte.x00]
   ++ (byte_of_Z <$> Z_to_little_endian 4 8 req_id)
   ++ [Byte.x00; Byte.x00; Byte.x00; Byte.x00;
       Byte.x00; Byte.x00; Byte.x00; Byte.x00])%list.

(** A client without transport, as [__init__] leaves it *)
Definition unconnected_client : client_protocol :=
  set_base (base_init new_unpacker ∅) new_client.

(** [client] after the runtime cancelled the future of call 1 *)
Definition cancelled_client : client_protocol :=
  set_base (set_loop {[0%nat := Cancelled]} (base client)) client.

(** A server whose root has the endpoint [ping] *)
Definition flat_server : server_protocol :=
  ServerProtocol (sbase server)
    (PyHandler {[ "ping" := PyFunction "ping" true ]} false) (sprefix server).


End Scenario.

Import Scenario.

(** X1 on [ns.add] *)
Lemma dispatch_join_witness :
  dispatch server (join "." (["ns"] ++ ["add"])) = Ok (PyFunction "add" true).
Proof.
  apply (dispatch_join server ["ns"] "add").
  - reflexivity.
  - repeat (apply Forall_cons; split; [split; [discriminate|reflexivity]|]).
    constructor.
  - eexists. split; [reflexivity|]. split; reflexivity.
Defined.

(** X2 on [.ping], for a root with the endpoint [ping] *)
Lemma dispatch_leading_dot_witness :
  dispatch flat_server ".ping" = Ok (PyFunction "ping" true).
Proof.
  apply (dispatch_leading_dot flat_server "ping");
    [discriminate|reflexivity|reflexivity].
Defined.

(** X4 on the first call of a new client *)
Lemma call_connected_witness :
  ∃ suffix self',
    call LittleEndian pack utf8_encode 0 "ns.add" (VTuple [VInt 2; VInt 3])
      (VDict []) new_client = (Ok 0%nat, self') ∧
    calls self' = {[1 := 0%nat]} ∧
    transport (base self')
    = Some [[(prefix new_client ++ suffix)%list; ascii_bytes "ns.add";
             [Byte.x92; Byte.x02; Byte.x03]; [Byte.x80]]].
Proof.
  destruct (call_connected LittleEndian pack utf8_encode 0 "ns.add"
              (VTuple [VInt 2; VInt 3]) (VDict []) new_client
              (ascii_bytes "ns.add") [Byte.x92; Byte.x02; Byte.x03]
              [Byte.x80] [])
    as (fut & suffix & self' & Hcall & _ & _ & _ & Hcalls & _ & Hwritten & _);
    try reflexivity.
  assert ((call LittleEndian pack utf8_encode 0 "ns.add"
             (VTuple [VInt 2; VInt 3]) (VDict []) new_client).1
          = Ok 0%nat) as Hfut by reflexivity.
  rewrite Hcall in Hfut. injection Hfut as ->.
  exists suffix, self'. split; [exact Hcall|].
  split; [rewrite Hcalls; reflexivity|exact Hwritten].
Defined.

(** X5 on a client that was never connected *)
Lemma call_disconnected_witness :
  ∃ fut self',
    call LittleEndian pack utf8_encode 0 "ns.add" (VTuple [VInt 2; VInt 3])
      (VDict []) unconnected_client = (Raise AttributeError, self') ∧
    calls self' = <[1 := fut]> ∅ ∧
    loop (base self') !! fut = Some Pending.
Proof.
  destruct (call_disconnected LittleEndian pack utf8_encode 0 "ns.add"
              (VTuple [VInt 2; VInt 3]) (VDict []) unconnected_client
              (ascii_bytes "ns.add") [Byte.x92; Byte.x02; Byte.x03]
              [Byte.x80])
    as (fut & self' & Hcall & Hcalls & Hfut & _); try reflexivity.
  exists fut, self'. split; [exact Hcall|]. split; [exact Hcalls|exact Hfut].
Defined.

(** X8 on the response [5] for call 1 *)
Lemma response_resolves_future_witness :
  ∃ self',
    msg_received LittleEndian feed unpack
      [response_header 1 false; [Byte.x05]] client = (Ok tt, self') ∧
    loop (base self') !! 0%nat = Some (Finished (VInt 5)) ∧
    calls self' = delete 1 (calls client).
Proof.
  destruct (response_resolves_future LittleEndian feed unpack
              (response_header 1 false) [Byte.x05] client 1 2 1 0 (VInt 5)
              (base client) 0%nat)
    as (self' & Hrun & Hfut & Hcalls & _); try reflexivity.
  exists self'. split; [exact Hrun|]. split; [exact Hfut|exact Hcalls].
Defined.

(** X9 on an error response whose payload is the integer 5 *)
Lemma error_response_malformed_witness :
  ∃ self',
    msg_received LittleEndian feed unpack
      [response_header 1 true; [Byte.x05]] client = (Raise TypeError, self') ∧
    calls self' = delete 1 (calls client) ∧
    loop (base self') = loop (base client).
Proof.
  apply (error_response_malformed LittleEndian feed unpack
           (response_header 1 true) [Byte.x05] client 1 2 1 0 (VInt 5)
           (base client) 0%nat); try reflexivity.
  intros exc_type exc_args. discriminate.
Defined.

(** X10 on the response [5] for call 1 after its future was cancelled *)
Lemma response_for_done_future_witness :
  ∃ self',
    msg_received LittleEndian feed unpack
      [response_header 1 false; [Byte.x05]] cancelled_client
    = (Raise InvalidStateError, self') ∧
    calls self' = delete 1 (calls cancelled_client) ∧
    loop (base self') = loop (base cancelled_client).
Proof.
  apply (response_for_done_future LittleEndian feed unpack
           (response_header 1 false) [Byte.x05] cancelled_client 1 2 1 0
           (VInt 5) (base cancelled_client) 0%nat Cancelled);
    try reflexivity.
  discriminate.
Defined.

(** X11 on the first id of a client made with pid 4242 and random 7 *)
Lemma request_header_round_trip_witness :
  ∃ header self',
    _new_id LittleEndian 0 new_client = (Ok (header, 1), self') ∧
    length header = 16%nat ∧
    unpack_HHLd LittleEndian header = Ok (4242, 7, 1, 0).
Proof.
  destruct (_new_id LittleEndian 0 new_client) as [r self'] eqn:Hid.
  assert (r = Ok (request_header 1, 1)) as ->.
  { change r with (r, self').1. rewrite <- Hid. reflexivity. }
  exists (request_header 1), self'. split; [reflexivity|].
  apply (request_header_round_trip LittleEndian 4242 7 0 new_client
           (request_header 1) 1 self'); [reflexivity|reflexivity|exact Hid].
Defined.

(** X12 across the wrap: three allocations from 0xFFFFFFFE *)
Lemma new_ids_sequence_witness :
  ∃ self',
    new_ids LittleEndian [0; 0; 0] old_client
    = (Ok [0xffffffff; 0; 1], self') ∧
    counter self' = 1.
Proof.
  destruct (new_ids_sequence LittleEndian [0; 0; 0] old_client)
    as (req_ids & self' & Hrun & -> & Hcounter & _).
  { vm_compute. split; discriminate. }
  exists self'. split; [exact Hrun|exact Hcounter].
Defined.

(** X14 on a request for [ns.missing] *)
Lemma server_msg_received_not_found_witness :
  server_msg_received LittleEndian feed unpack utf8_decode
    iscoroutinefunction invoke isinstance_Exception
    [peer; request_header 1; ascii_bytes "ns.missing"; [Byte.x90];
     [Byte.x80]] server
  = (Ok (Completed (Raise (NotFoundError [VStr "ns.missing"])) 1 peer),
     server).
Proof.
  apply (server_msg_received_not_found LittleEndian feed unpack utf8_decode
           iscoroutinefunction invoke isinstance_Exception peer
           (request_header 1) (ascii_bytes "ns.missing") [Byte.x90]
           [Byte.x80] server 4242 7 1 0 "ns.missing"
           (NotFoundError [VStr "ns.missing"]));
    reflexivity.
Defined.

(** X15 on requests for [ns.add(2, 3)] and for [ns.add()], which raises
    [TypeError], and on a handler that is interrupted from the keyboard *)
Lemma server_msg_received_invokes_witness :
  server_msg_received LittleEndian feed unpack utf8_decode
    iscoroutinefunction invoke isinstance_Exception
    [peer; request_header 1; ascii_bytes "ns.add";
     [Byte.x92; Byte.x02; Byte.x03]; [Byte.x80]] server
  = (Ok (Completed (Ok (VInt 5)) 1 peer), server) ∧
  server_msg_received LittleEndian feed unpack utf8_decode
    iscoroutinefunction invoke isinstance_Exception
    [peer; request_header 1; ascii_bytes "ns.add"; [Byte.x90]; [Byte.x80]]
    server
  = (Ok (Completed (Raise TypeError) 1 peer), server) ∧
  server_msg_received LittleEndian feed unpack utf8_decode
    iscoroutinefunction interrupted isinstance_Exception
    [peer; request_header 1; ascii_bytes "ns.add"; [Byte.x90]; [Byte.x80]]
    server
  = (Raise KeyboardInterrupt, server).
Proof.
  split; [|split].
  - apply (server_msg_received_invokes LittleEndian feed unpack utf8_decode
             iscoroutinefunction invoke isinstance_Exception peer
             (request_header 1) (ascii_bytes "ns.add")
             [Byte.x92; Byte.x02; Byte.x03] [Byte.x80]
             server 4242 7 1 0 "ns.add" (PyFunction "add" true)
             (VList [VInt 2; VInt 3]) (VDict []) (sbase server)
             (sbase server)); reflexivity.
  - apply (server_msg_received_invokes LittleEndian feed unpack utf8_decode
             iscoroutinefunction invoke isinstance_Exception peer
             (request_header 1) (ascii_bytes "ns.add")
             [Byte.x90] [Byte.x80]
             server 4242 7 1 0 "ns.add" (PyFunction "add" true)
             (VList []) (VDict []) (sbase server)
             (sbase server)); reflexivity.
  - apply (server_msg_received_invokes LittleEndian feed unpack utf8_decode
             iscoroutinefunction interrupted isinstance_Exception peer
             (request_header 1) (ascii_bytes "ns.add")
             [Byte.x90] [Byte.x80]
             server 4242 7 1 0 "ns.add" (PyFunction "add" true)
             (VList []) (VDict []) (sbase server)
             (sbase server)); reflexivity.
Defined.

(** X16 on a handler that returned an object the packer does not take *)
Lemma process_call_result_pack_failure_witness :
  ∃ header payload server',
    process_call_result LittleEndian pack 0 0 (Ok (VObject "socket")) 1 peer
      server = (Ok tt, server') ∧
    transport (sbase server') = Some [[peer; header; payload]] ∧
    unpack payload = (Ok (VList [VStr "builtins.TypeError"; VList []]), []).
Proof.
  eexists _, _, _. split.
  - apply (process_call_result_pack_failure LittleEndian pack 0 0
             (VObject "socket") 1 peer server [] TypeError);
      try reflexivity.
    vm_compute. split; discriminate.
  - split; reflexivity.
Defined.


(** X18 on the result [5] of call 1 *)
Lemma result_round_trip_witness :
  ∃ header server' client',
    process_call_result LittleEndian pack 0 0 (Ok (VInt 5)) 1 peer server
    = (Ok tt, server') ∧
    transport (sbase server') = Some [[peer; header; [Byte.x05]]] ∧
    msg_received LittleEndian feed unpack [header; [Byte.x05]] client
    = (Ok tt, client') ∧
    loop (base client') !! 0%nat = Some (Finished (VInt 5)).
Proof.
  destruct (result_round_trip LittleEndian feed unpack pack 0 0 (VInt 5) 1
              peer 1 2 server [] [Byte.x05] client (VInt 5) (base client)
              0%nat)
    as (header & server' & client' & Hserver & Hwritten & _ & Hclient & Hfut
        & _); try reflexivity.
  { vm_compute. split; discriminate. }
  exists header, server', client'.
  split; [exact Hserver|]. split; [exact Hwritten|].
  split; [exact Hclient|exact Hfut].
Defined.


(** X20 on call 1 for [ns.missing] *)
Lemma not_found_round_trip_witness :
  ∃ header payload server' client',
    process_call_result LittleEndian pack 0 0
      (Raise (NotFoundError [VStr "ns.missing"])) 1 peer server
    = (Ok tt, server') ∧
    transport (sbase server') = Some [[peer; header; payload]] ∧
    msg_received LittleEndian feed unpack [header; payload] client
    = (Ok tt, client') ∧
    loop (base client') !! 0%nat
    = Some (Failed (NotFoundError [VStr "ns.missing"])).
Proof.
  destruct (not_found_round_trip LittleEndian feed unpack pack utf8_decode
              builtins iscoroutinefunction invoke isinstance_Exception 0 0
              (request_header 1)
              (ascii_bytes "ns.missing") [Byte.x90] [Byte.x80] peer
              4242 7 1 0 "ns.missing" 1 2 server []
              ([Byte.x92; Byte.xb8] ++ ascii_bytes "aiozmq.rpc.NotFoundError"
               ++ [Byte.x91; Byte.xaa] ++ ascii_bytes "ns.missing")%list
              client
              (VList [VStr "aiozmq.rpc.NotFoundError";
                      VList [VStr "ns.missing"]])
              (VList [VStr "ns.missing"]) (base client) 0%nat)
    as (header & server' & client' & _ & Hserver & Hwritten & Hclient & Hfut);
    try reflexivity.
  { vm_compute. split; discriminate. }
  eexists header, _, server', client'.
  split; [exact Hserver|]. split; [exact Hwritten|].
  split; [exact Hclient|exact Hfut].
Defined.

(** X21 on [rpc.ns.add(2, 3)], from the call to the resolved future *)
Lemma call_round_trip_witness :
  ∃ fut client1 header client2,
    call LittleEndian pack utf8_encode 0 "ns.add" (VTuple [VInt 2; VInt 3])
      (VDict []) new_client = (Ok fut, client1) ∧
    msg_received LittleEndian feed unpack [header; [Byte.x05]] client1
    = (Ok tt, client2) ∧
    loop (base client2) !! fut = Some (Finished (VInt 5)) ∧
    calls client2 = calls new_client.
Proof.
  destruct (call_round_trip LittleEndian feed unpack pack utf8_encode
              utf8_decode iscoroutinefunction invoke isinstance_Exception
              0 0 0 "ns.add"
              (VTuple [VInt 2; VInt 3]) (VDict []) new_client server
              (ascii_bytes "ns.add") [Byte.x92; Byte.x02; Byte.x03]
              [Byte.x80] [] [] 4242 7 1 2 peer (PyFunction "add" true)
              (VList [VInt 2; VInt 3]) (VDict []) (sbase server)
              (sbase server) (VInt 5) [Byte.x05] (VInt 5) (base new_client))
    as (fut & request & client1 & server1 & header & server2 & client2
        & Hcall & _ & _ & _ & _ & Hclient & Hfut & Hcalls); try reflexivity.
  exists fut, client1, header, client2.
  split; [exact Hcall|]. split; [exact Hclient|].
  split; [exact Hfut|exact Hcalls].
Defined.

(** X22 on a client whose first waiter was cancelled: the second waiter is
    left pending. *)
Lemma connection_lost_stale_waiter_witness :
  ∃ self',
    on_base (connection_lost None) stale_client
    = (Raise InvalidStateError, self') ∧
    transport (base self') = None ∧
    loop (base self') !! 2%nat = Some Pending.
Proof.
  destruct (connection_lost_stale_waiter None stale_client [] 1%nat [2%nat]
              (Some Cancelled))
    as (self' & Hrun & Htransport & _ & Hframe & _); try reflexivity.
  - constructor.
  - intros Hin. inversion Hin.
  - intros w' Hin. inversion Hin.
  - discriminate.
  - exists self'. split; [exact Hrun|]. split; [exact Htransport|].
    rewrite Hframe; [reflexivity|]. intros Hin. inversion Hin.
Defined.

(** X23 on the client with call 1 pending *)
Lemma wait_closed_released_witness :
  ∃ waiter self1 self2,
    on_base wait_closed client = (Ok (Some waiter), self1) ∧
    on_base (connection_lost None) self1 = (Ok tt, self2) ∧
    loop (base self2) !! waiter = Some (Finished VNone) ∧
    calls self2 = calls client.
Proof.
  destruct (wait_closed_released None client [])
    as (waiter & self1 & self2 & Hwait & _ & Hlost & Hreleased & Hcalls & _).
  - split; [simpl; lia|]. split; [constructor|].
    split; [intros w Hin; inversion Hin|].
    intros req_id fut Hcall.
    change (calls client) with ({[1 := 0%nat]} : gmap Z nat) in Hcall.
    apply lookup_singleton_Some in Hcall as [_ <-].
    split; [|intros Hin; inversion Hin].
    apply elem_of_dom. by eexists.
  - reflexivity.
  - exists waiter, self1, self2.
    split; [exact Hwait|]. split; [exact Hlost|].
    split; [exact Hreleased|exact Hcalls].
Defined.
